(** * DeepSea-AI: the VAE + clustering engine ([pipeline/scripts/vae_cluster.py])

    A shallow embedding of the latent-representation-learning and clustering
    script, followed by the properties its specification states.

    Conventions of the embedding.
    - Python and torch floats are modelled as real numbers ([R]): rounding and
      overflow are outside the model.  The two special values the script
      tests for or writes ([np.inf], NaN) live in [npfloat].
    - Python integers are [Z]; array lengths are [nat].
    - A 1-D tensor or array is a [list R], a 2-D one a list of rows.
    - Random draws ([torch.randn_like], the shuffled minibatches) are explicit
      arguments: the functions below are the deterministic part of the code.
    - Third-party calls (autograd with AdamW, StandardScaler, UMAP, PCA,
      HDBSCAN) are the fields of a record [libs]; a call that may raise
      returns an [option].
    - [main] starts from the loaded identifiers and embedding matrix and
      ends with the two tables; the naming of the files and the save step
      (creating the output directories, writing the two files) are modelled
      apart, in [Paths] and [Saving].
    - Of what the script prints, the truncation warning and the messages of
      the projection stage are kept; the statistics lines, the per-epoch
      log and the advisory posterior-collapse warning change nothing
      downstream and are left out. *)

From Stdlib Require Import String.
From Stdlib Require Import Reals Lra Lia ZArith List Bool.
From Stdlib Require Floats Uint63.
From Stdlib Require Decimal DecimalString DecimalNat DecimalFacts.
Import ListNotations.
Open Scope R_scope.

(** ** Config / Params *)

Record config := {
  latent_dim : nat;
  hidden_dim : nat;
  batch_size : nat;
  epochs : Z;
  learning_rate : R;
  beta_final : R;
  beta_warmup_epochs : Z;
  pca_components : nat;
  umap_components : nat;
  input_noise_std : R;
  hdbscan_min_cluster_size : Z;
  hdbscan_min_samples : Z
}.

(** The constants at the top of the script. *)
Definition default_config : config := {|
  latent_dim := 16;
  hidden_dim := 256;
  batch_size := 128;
  epochs := 50;
  learning_rate := 1 / 1000;
  beta_final := 10;
  beta_warmup_epochs := 10;
  pca_components := 5;
  umap_components := 10;
  input_noise_std := 1 / 100;
  hdbscan_min_cluster_size := 30;
  hdbscan_min_samples := 10
|}.

(** ** Numbers and arrays *)

(** A numpy float where the special values matter. *)
Inductive npfloat :=
| finite (r : R)
| pos_inf
| neg_inf
| nan.

(** [np.isnan] *)
Definition isnan (x : npfloat) : bool :=
  match x with nan => true | _ => false end.

Definition vec := list R.
Definition matrix := list vec.

Module Tensor.

Fixpoint zip_with {A B C : Type} (f : A -> B -> C) (xs : list A) (ys : list B)
  : list C :=
  match xs, ys with
  | x :: xs', y :: ys' => f x y :: zip_with f xs' ys'
  | _, _ => []
  end.

Fixpoint zip_with3 {A B C D : Type} (f : A -> B -> C -> D)
  (xs : list A) (ys : list B) (zs : list C) : list D :=
  match xs, ys, zs with
  | x :: xs', y :: ys', z :: zs' => f x y z :: zip_with3 f xs' ys' zs'
  | _, _, _ => []
  end.

(** [torch.sum] / [np.sum] over one axis *)
Definition vsum (v : vec) : R := fold_right Rplus 0 v.

(** [.mean()] of a 1-D tensor *)
Definition mean (v : vec) : R := vsum v / INR (length v).

Definition vadd (a b : vec) : vec := zip_with Rplus a b.
Definition vsub (a b : vec) : vec := zip_with Rminus a b.
Definition dot (a b : vec) : R := vsum (zip_with Rmult a b).

(** [torch.relu] *)
Definition relu (x : R) : R := Rmax 0 x.

(** [torch.clamp(x, min=lo, max=hi)] *)
Definition clamp (lo hi x : R) : R := Rmin (Rmax x lo) hi.

(** [torch.mean((a - b) ** 2, dim=1)] for one row *)
Definition mse_row (a b : vec) : R :=
  mean (map (fun d => d ^ 2) (vsub a b)).

(** [m.mean(axis=0)]: the column means of a 2-D array *)
Definition col_mean (m : matrix) : vec :=
  match m with
  | [] => []
  | r :: rs => map (fun s => s / INR (length m)) (fold_left vadd rs r)
  end.

(** Number of elements of a 2-D array ([.size]) *)
Definition size (m : matrix) : nat := length (concat m).

(** [m.shape[1]] *)
Definition ncols {A : Type} (m : list (list A)) : nat := length (hd [] m).

End Tensor.
Import Tensor.

(** ** VAE Definition *)

Module VAE.

(** [nn.Linear]: [weight] has one row per output unit. *)
Record Linear := { weight : matrix; bias : vec }.

Definition apply_linear (l : Linear) (x : vec) : vec :=
  vadd (map (fun w => dot w x) (weight l)) (bias l).

Record params := {
  fc1 : Linear;
  fc_mu : Linear;
  fc_logvar : Linear;
  fc2 : Linear;
  fc3 : Linear
}.

(** [encode] on one row: [(mu, logvar)] *)
Definition encode1 (p : params) (x : vec) : vec * vec :=
  let h := map relu (apply_linear (fc1 p) x) in
  (apply_linear (fc_mu p) h, apply_linear (fc_logvar p) h).

(** [encode] on a batch *)
Definition encode (p : params) (x : matrix) : matrix * matrix :=
  (map (fun r => fst (encode1 p r)) x, map (fun r => snd (encode1 p r)) x).

(** [reparameterize] on one row; [eps] is the draw of [torch.randn_like]. *)
Definition reparameterize1 (mu logvar eps : vec) : vec :=
  let logvar := map (clamp (-20) 20) logvar in
  let std := map (fun l => exp (0.5 * l)) logvar in
  vadd mu (zip_with Rmult eps std).

Definition reparameterize (mu logvar eps : matrix) : matrix :=
  zip_with3 reparameterize1 mu logvar eps.

Definition decode1 (p : params) (z : vec) : vec :=
  let h := map relu (apply_linear (fc2 p) z) in
  apply_linear (fc3 p) h.

Definition decode (p : params) (z : matrix) : matrix := map (decode1 p) z.

(** [forward]: [(x_recon, mu, logvar)] *)
Definition forward (p : params) (x eps : matrix) : matrix * matrix * matrix :=
  let '(mu, logvar) := encode p x in
  let z := reparameterize mu logvar eps in
  (decode p z, mu, logvar).

(** [vae_losses]: [(recon_loss, kld, recon_per_sample)] *)
Definition vae_losses (x x_recon mu logvar : matrix) : R * R * vec :=
  let recon_per_sample := zip_with mse_row x_recon x in
  let recon_loss := mean recon_per_sample in
  let kld_per_sample :=
    zip_with (fun m lv =>
      -0.5 * vsum (zip_with (fun mj lj => 1 + lj - mj ^ 2 - exp lj) m lv))
      mu logvar in
  let kld := mean kld_per_sample in
  (recon_loss, kld, recon_per_sample).

End VAE.
Import VAE.

(** ** Train VAE *)

Module Trainer.

(** linear beta schedule *)
Definition beta_schedule (cfg : config) (epoch : Z) : R :=
  if ((epoch <=? beta_warmup_epochs cfg) && (beta_warmup_epochs cfg >? 0))%Z
  then IZR epoch / IZR (beta_warmup_epochs cfg) * beta_final cfg
  else beta_final cfg.

(** What one iteration of [for batch in loader] consumes: the minibatch
    and the two draws of [torch.randn_like] made while processing it. *)
Record batch_draw := {
  x_batch : matrix;
  noise_draw : matrix;
  eps_draw : matrix
}.

(** [x_batch + noise] with [noise = torch.randn_like(x_batch) * input_noise_std] *)
Definition add_input_noise (cfg : config) (x noise : matrix) : matrix :=
  if Rlt_dec 0 (input_noise_std cfg)
  then zip_with vadd x (map (map (fun n => n * input_noise_std cfg)) noise)
  else x.

(** The body of the minibatch loop up to [loss]:
    [(recon_loss, kld, loss)] as a function of the model parameters. *)
Definition batch_losses (cfg : config) (beta : R) (b : batch_draw)
    (p : params) : R * R * R :=
  let x_noisy := add_input_noise cfg (x_batch b) (noise_draw b) in
  let '(x_recon, mu, logvar) := forward p x_noisy (eps_draw b) in
  let '(recon_loss, kld, _) := vae_losses (x_batch b) x_recon mu logvar in
  (recon_loss, kld, recon_loss + beta * kld).

Definition batch_loss (cfg : config) (beta : R) (b : batch_draw)
    (p : params) : R :=
  snd (batch_losses cfg beta b p).

(** The running totals of one epoch. *)
Record totals := {
  total_recon : R;
  total_kld : R;
  total_loss : R;
  n_batches : Z
}.

Definition zero_totals : totals :=
  {| total_recon := 0; total_kld := 0; total_loss := 0; n_batches := 0 |}.

Record epoch_summary := {
  avg_recon : R;
  avg_kld : R;
  avg_loss : R;
  beta_used : R
}.

(** Python's [float / int]: raises ZeroDivisionError on a zero divisor. *)
Definition py_div (a : R) (n : Z) : option R :=
  if (n =? 0)%Z then None else Some (a / IZR n).

(** The three averages after the minibatch loop. *)
Definition epoch_averages (beta : R) (t : totals) : option epoch_summary :=
  match py_div (total_recon t) (Z.max 1 (n_batches t)),
        py_div (total_kld t) (Z.max 1 (n_batches t)),
        py_div (total_loss t) (Z.max 1 (n_batches t)) with
  | Some r, Some k, Some l =>
      Some {| avg_recon := r; avg_kld := k; avg_loss := l; beta_used := beta |}
  | _, _, _ => None
  end.

Section WithOptimizer.
(** [loss.backward(); clip_grad_norm_(...); optimizer.step()]: autograd
    differentiates the loss as a function of the parameters. *)
Context {optimizer_state : Type}.
Variable optimizer_step :
  (params -> R) -> params * optimizer_state -> params * optimizer_state.

(** One iteration of [for batch in loader]. *)
Definition train_batch (cfg : config) (beta : R)
    (acc : params * optimizer_state * totals) (b : batch_draw)
  : params * optimizer_state * totals :=
  let '(st, t) := acc in
  let '(recon_loss, kld, loss) := batch_losses cfg beta b (fst st) in
  let st' := optimizer_step (batch_loss cfg beta b) st in
  (st',
   {| total_recon := total_recon t + recon_loss;
      total_kld := total_kld t + kld;
      total_loss := total_loss t + loss;
      n_batches := n_batches t + 1 |}).

(** The minibatch loop of one epoch. *)
Definition run_batches (cfg : config) (beta : R)
    (st : params * optimizer_state) (loader : list batch_draw)
  : params * optimizer_state * totals :=
  fold_left (train_batch cfg beta) loader (st, zero_totals).

(** The body of [for epoch in range(1, epochs + 1)]; [None] when the
    epoch raises. *)
Definition train_epoch (cfg : config) (epoch : Z)
    (loader : list batch_draw) (st : params * optimizer_state)
  : option (params * optimizer_state * epoch_summary) :=
  let beta := beta_schedule cfg epoch in
  let '(st', t) := run_batches cfg beta st loader in
  match epoch_averages beta t with
  | Some s => Some (st', s)
  | None => None
  end.

(** [range(1, epochs + 1)] *)
Definition epoch_range (cfg : config) : list Z :=
  map Z.of_nat (seq 1 (Z.to_nat (epochs cfg))).

(** The whole training loop; [loader e] is what the DataLoader yields
    in epoch [e]. *)
Definition train (cfg : config) (loader : Z -> list batch_draw)
    (st : params * optimizer_state)
  : option (params * optimizer_state * list epoch_summary) :=
  fold_left
    (fun acc epoch =>
       match acc with
       | Some (st, history) =>
           match train_epoch cfg epoch (loader epoch) st with
           | Some (st', s) => Some (st', history ++ [s])
           | None => None
           end
       | None => None
       end)
    (epoch_range cfg) (Some (st, [])).
End WithOptimizer.

End Trainer.
Import Trainer.

(** The schedule once more, in IEEE binary64 as Python evaluates it
    ([float(epoch) / float(beta_warmup_epochs) * beta_final]), to measure
    what the real-number model leaves out. *)
Module Binary64.
Import Floats.

Definition float_of_Z (n : Z) : float := of_uint63 (Uint63.of_Z n).

Definition beta_schedule (beta_final : float) (beta_warmup_epochs epoch : Z)
  : float :=
  if ((epoch <=? beta_warmup_epochs)%Z && (beta_warmup_epochs >? 0)%Z)%bool
  then (float_of_Z epoch / float_of_Z beta_warmup_epochs * beta_final)%float
  else beta_final.

(** The values of beta over [range(1, epochs + 1)]. *)
Definition betas (beta_final : float) (beta_warmup_epochs epochs : Z)
  : list float :=
  map (fun e => beta_schedule beta_final beta_warmup_epochs (Z.of_nat e))
      (seq 1 (Z.to_nat epochs)).

(** [beta_final = 10.0] *)
Definition ten : float := 10%float.
Definition three : float := 3%float.

Fixpoint nondecreasing (l : list float) : bool :=
  match l with
  | a :: ((b :: _) as rest) => ((a <=? b)%float && nondecreasing rest)%bool
  | _ => true
  end.

End Binary64.

(** ** Get Latent Representations & Recon errors *)

Module Latent.

(** The block under [torch.no_grad()]: [(latent, recon_errors)];
    [eps] is the draw of [torch.randn_like] inside [reparameterize]. *)
Definition extract (p : params) (X_all eps : matrix) : matrix * vec :=
  let '(mu_all, logvar_all) := encode p X_all in
  let latent := mu_all in
  let z_sample := reparameterize mu_all logvar_all eps in
  let recon := decode p z_sample in
  let recon_errors := zip_with mse_row recon X_all in
  (latent, recon_errors).

End Latent.
Import Latent.

(** ** Dimensionality reduction before clustering (UMAP preferred) *)

Module Projection.

Inductive tier := tier_umap | tier_pca | tier_scaled.

Record projection (A : Type) := {
  latent_proj : list (list A);
  used : tier;
  events : list string
}.
Arguments latent_proj {A} _.
Arguments used {A} _.
Arguments events {A} _.

Definition is_none {T : Type} (o : option T) : bool :=
  match o with None => true | Some _ => false end.

Section Chain.
(** The chain never looks inside the arrays, so their element type is
    left open. *)
Context {A : Type}.
(** [_HAS_UMAP] *)
Variable has_umap : bool.
(** [umap.UMAP(n_components=n, ...).fit_transform]; [None]: it raised. *)
Variable umap_fit_transform : nat -> list (list A) -> option (list (list A)).
(** [PCA(n_components=n, ...).fit_transform] together with
    [np.sum(pca.explained_variance_ratio_)]; [None]: it raised. *)
Variable pca_fit_transform :
  nat -> list (list A) -> option (list (list A) * npfloat).

Definition n_target (cfg : config) (use_umap : bool)
    (latent_scaled : list (list A)) : nat :=
  if use_umap then Nat.min (umap_components cfg) (ncols latent_scaled)
  else Nat.min (pca_components cfg) (ncols latent_scaled).

Definition msg_umap : string := "Projecting latent space with UMAP..."%string.
Definition msg_umap_ok : string := "UMAP output shape"%string.
Definition msg_umap_failed : string :=
  "WARNING: UMAP failed. Falling back to PCA."%string.
Definition msg_pca : string := "Projecting latent space with PCA..."%string.
Definition msg_pca_ok : string := "PCA explained variance"%string.
Definition msg_pca_failed : string :=
  "WARNING: PCA failed. Falling back to scaled latent without PCA."%string.

(** The PCA block with its fallback to the scaled latent; [log] is what
    has been printed so far. *)
Definition pca_or_scaled (cfg : config) (latent_scaled : list (list A))
    (log : list string) : projection A :=
  let n_components := Nat.min (pca_components cfg) (ncols latent_scaled) in
  match pca_fit_transform n_components latent_scaled with
  | Some (proj, explained) =>
      if isnan explained
      then {| latent_proj := latent_scaled; used := tier_scaled;
              events := log ++ [msg_pca; msg_pca_failed] |}
      else {| latent_proj := proj; used := tier_pca;
              events := log ++ [msg_pca; msg_pca_ok] |}
  | None =>
      {| latent_proj := latent_scaled; used := tier_scaled;
         events := log ++ [msg_pca; msg_pca_failed] |}
  end.

Definition reduce (cfg : config) (latent_scaled : list (list A))
  : projection A :=
  let use_umap := has_umap in
  let n := n_target cfg use_umap latent_scaled in
  let '(latent_proj, use_umap, log) :=
    if use_umap then
      match umap_fit_transform n latent_scaled with
      | Some proj => (Some proj, use_umap, [msg_umap; msg_umap_ok])
      | None => (None, false, [msg_umap; msg_umap_failed])
      end
    else (None, use_umap, []) in
  if negb use_umap || is_none latent_proj then
    pca_or_scaled cfg latent_scaled log
  else
    match latent_proj with
    | Some proj => {| latent_proj := proj; used := tier_umap; events := log |}
    | None => pca_or_scaled cfg latent_scaled log
    end.
End Chain.

End Projection.
Import Projection.

(** ** Clustering and cluster distances *)

Module Novelty.

(** [[c for c in set(cluster_labels) if c != -1]] *)
Definition unique_clusters (cluster_labels : list Z) : list Z :=
  filter (fun c => negb (c =? -1)%Z) (nodup Z.eq_dec cluster_labels).

(** [latent_proj[cluster_labels == c]] *)
Definition members (latent_proj : matrix) (cluster_labels : list Z) (c : Z)
  : matrix :=
  map fst (filter (fun rl => (snd rl =? c)%Z) (combine latent_proj cluster_labels)).

Definition centroid (latent_proj : matrix) (cluster_labels : list Z) (c : Z)
  : vec :=
  col_mean (members latent_proj cluster_labels c).

(** Euclidean distance, the default metric of [pairwise_distances] *)
Definition euclidean (a b : vec) : R :=
  sqrt (vsum (map (fun d => d ^ 2) (vsub a b))).

Definition pairwise_distances (X Y : matrix) : matrix :=
  map (fun x => map (euclidean x) Y) X.

(** [.min()] of one row ([distances.min(axis=1)]); the row is never empty
    where the script takes it. *)
Definition row_min (r : vec) : R :=
  match r with
  | [] => 0
  | d :: ds => fold_left Rmin ds d
  end.

(** [None]: the boolean mask [cluster_labels == c] does not fit the rows
    of [latent_proj] (IndexError). *)
Definition cluster_distance (latent_proj : matrix) (cluster_labels : list Z)
  : option (list npfloat) :=
  let unique := unique_clusters cluster_labels in
  if (0 <? length unique)%nat then
    if (length cluster_labels =? length latent_proj)%nat then
      let centroids := map (centroid latent_proj cluster_labels) unique in
      let distances := pairwise_distances latent_proj centroids in
      Some (map (fun r => finite (row_min r)) distances)
    else None
  else Some (repeat pos_inf (length latent_proj)).

End Novelty.
Import Novelty.

(** ** The script from the loaded data to the two tables *)

Module Pipeline.

(** The third-party calls of the script. *)
Record libs := {
  optimizer_state : Type;
  (** [torch.optim.AdamW(vae.parameters(), ...)] *)
  optimizer_init : params -> optimizer_state;
  optimizer_step :
    (params -> R) -> params * optimizer_state -> params * optimizer_state;
  (** [StandardScaler().fit_transform] *)
  standard_scaler : matrix -> matrix;
  has_umap : bool;
  umap_fit_transform : nat -> matrix -> option matrix;
  pca_fit_transform : nat -> matrix -> option (matrix * npfloat);
  (** [hdbscan.HDBSCAN(min_cluster_size, min_samples).fit_predict] *)
  hdbscan_fit_predict : Z -> Z -> matrix -> option (list Z)
}.

(** The random draws of one run. *)
Record randomness := {
  (** the Xavier-initialised model *)
  init_params : params;
  (** the minibatches of each epoch with their draws *)
  loader : Z -> list batch_draw;
  (** the draw of the final [reparameterize] *)
  eps_final : matrix
}.

Definition truncation_warning : string :=
  "WARNING: len(read_ids) != len(embeddings). Truncating to match."%string.

(** The length check after loading: [(read_ids, embeddings, printed)] *)
Definition align (read_ids : list string) (embeddings : matrix)
  : list string * matrix * list string :=
  if negb (length read_ids =? length embeddings)%nat then
    let minlen := Nat.min (length read_ids) (length embeddings) in
    (firstn minlen read_ids, firstn minlen embeddings, [truncation_warning])
  else (read_ids, embeddings, []).

(** [pd.DataFrame({...})] raises when its columns differ in length. *)
Definition clusters_frame (read_ids : list string) (cluster_labels : list Z)
  : option (list (string * Z)) :=
  if (length read_ids =? length cluster_labels)%nat
  then Some (combine read_ids cluster_labels)
  else None.

Definition novelty_frame (read_ids : list string) (recon_errors : vec)
    (cluster_distance : list npfloat)
  : option (list (string * R * npfloat)) :=
  if ((length read_ids =? length recon_errors)%nat
      && (length read_ids =? length cluster_distance)%nat)%bool
  then Some (combine (combine read_ids recon_errors) cluster_distance)
  else None.

Record outputs := {
  clusters_df : list (string * Z);
  novelty_df : list (string * R * npfloat);
  printed : list string
}.

Definition bind {S T : Type} (o : option S) (f : S -> option T) : option T :=
  match o with Some x => f x | None => None end.

Notation "x <- o ;; k" := (bind o (fun x => k))
  (at level 61, o at next level, right associativity).

(** [main] after the two files are loaded, as far as the two tables:
    [Some out] holds the tables the run builds, [None]: the run aborts
    before both are built.  Creating the output directories and writing
    the files is the save step, [Saving.save_outputs]. *)
Definition main (L : libs) (cfg : config) (rnd : randomness)
    (read_ids : list string) (embeddings : matrix) : option outputs :=
  let '(read_ids, embeddings, log0) := align read_ids embeddings in
  (* embeddings.min() raises on an array without elements *)
  if (size embeddings =? 0)%nat then None else
  let X_all := embeddings in
  let st0 := (init_params rnd, optimizer_init L (init_params rnd)) in
  trained <- train (optimizer_step L) cfg (loader rnd) st0 ;;
  let vae := fst (fst trained) in
  let '(latent, recon_errors) := extract vae X_all (eps_final rnd) in
  let latent_scaled := standard_scaler L latent in
  let proj :=
    reduce (has_umap L) (umap_fit_transform L) (pca_fit_transform L)
           cfg latent_scaled in
  cluster_labels <-
    hdbscan_fit_predict L (hdbscan_min_cluster_size cfg)
                        (hdbscan_min_samples cfg) (latent_proj proj) ;;
  cluster_distance <- cluster_distance (latent_proj proj) cluster_labels ;;
  clusters <- clusters_frame read_ids cluster_labels ;;
  novelty <- novelty_frame read_ids recon_errors cluster_distance ;;
  Some {| clusters_df := clusters;
          novelty_df := novelty;
          printed := log0 ++ events proj |}.

End Pipeline.
Import Pipeline.

(** * Specification-side definitions *)

Module Spec.

(** The closed form of KL( N(mu, var) || N(0, 1) ) for one coordinate. *)
Definition kl_gauss (mu var : R) : R :=
  1 / 2 * (var + mu ^ 2 - 1 - ln var).

(** KL divergence of a diagonal Gaussian posterior, given by its mean and
    log-variance, from the standard normal prior. *)
Definition kl_to_standard_normal (mu logvar : vec) : R :=
  vsum (zip_with (fun m lv => kl_gauss m (exp lv)) mu logvar).

(** The per-sample view of the training loss: every sample is noised,
    encoded, sampled and decoded on its own, and its reconstruction is
    compared with the sample as it was before the noise. *)
Definition denoising_loss (cfg : config) (p : params) (beta : R)
    (x noise eps : matrix) : R :=
  let x_noisy :=
    zip_with (fun xr nr => vadd xr (map (fun n => n * input_noise_std cfg) nr))
             x noise in
  let enc := map (encode1 p) x_noisy in
  let recon :=
    zip_with (fun ml e => decode1 p (reparameterize1 (fst ml) (snd ml) e))
             enc eps in
  mean (zip_with mse_row recon x)
  + beta * mean (map (fun ml => kl_to_standard_normal (fst ml) (snd ml)) enc).

(** clamp(x, -20, 20), by cases *)
Definition clamp_20 (x : R) : R :=
  if Rlt_dec x (-20) then -20 else if Rlt_dec 20 x then 20 else x.

(** One stochastic sample of a read's encoded distribution, decoded and
    compared with the read's clean input. *)
Definition sampled_recon_error (p : params) (x eps : vec) : R :=
  let '(mu, logvar) := encode1 p x in
  mse_row (decode1 p (reparameterize1 mu logvar eps)) x.

(** [d] is the least of the distances from [x] to the centroids of the
    non-noise labels. *)
Definition nearest_centroid_distance (latent_proj : matrix)
    (cluster_labels : list Z) (x : vec) (d : R) : Prop :=
  (exists c, In c cluster_labels /\ c <> (-1)%Z /\
             d = euclidean x (centroid latent_proj cluster_labels c)) /\
  (forall c, In c cluster_labels -> c <> (-1)%Z ->
             d <= euclidean x (centroid latent_proj cluster_labels c)).

(** The identifiers and the embedding rows after the length check. *)
Definition aligned_ids (read_ids : list string) (embeddings : matrix)
  : list string := fst (fst (align read_ids embeddings)).

Definition aligned_X (read_ids : list string) (embeddings : matrix)
  : matrix := snd (fst (align read_ids embeddings)).

(** The clustering input that [main] derives from a trained model. *)
Definition projected (L : libs) (cfg : config) (vae : params)
    (X eps : matrix) : projection R :=
  reduce (has_umap L) (umap_fit_transform L) (pca_fit_transform L) cfg
         (standard_scaler L (fst (extract vae X eps))).

(** [main] returned [out] after training to [trained], clustering to
    [labels] and scoring to [distance]. *)
Definition completed (L : libs) (cfg : config) (rnd : randomness)
    (read_ids : list string) (embeddings : matrix) (out : outputs)
    (trained : params * optimizer_state L * list epoch_summary)
    (labels : list Z) (distance : list npfloat) : Prop :=
  let ids := aligned_ids read_ids embeddings in
  let X := aligned_X read_ids embeddings in
  let vae := fst (fst trained) in
  let recon_errors := snd (extract vae X (eps_final rnd)) in
  let proj := projected L cfg vae X (eps_final rnd) in
  size X <> 0%nat /\
  train (optimizer_step L) cfg (loader rnd)
        (init_params rnd, optimizer_init L (init_params rnd)) = Some trained /\
  hdbscan_fit_predict L (hdbscan_min_cluster_size cfg)
                      (hdbscan_min_samples cfg) (latent_proj proj)
  = Some labels /\
  cluster_distance (latent_proj proj) labels = Some distance /\
  length ids = length labels /\
  length ids = length recon_errors /\
  length ids = length distance /\
  clusters_df out = combine ids labels /\
  novelty_df out = combine (combine ids recon_errors) distance /\
  printed out = snd (align read_ids embeddings) ++ events proj.

(** The same run with another draw for the final sampling. *)
Definition with_eps_final (rnd : randomness) (eps : matrix) : randomness :=
  {| init_params := init_params rnd; loader := loader rnd; eps_final := eps |}.

(** The shapes the script relies on: the scaler returns one row per
    input row, and a projection or a clustering that returns (it may as
    well raise) returns one row, or one label, per input row. *)
Definition well_shaped (L : libs) : Prop :=
  (forall m, length (standard_scaler L m) = length m) /\
  (forall n m proj,
     umap_fit_transform L n m = Some proj -> length proj = length m) /\
  (forall n m proj e,
     pca_fit_transform L n m = Some (proj, e) -> length proj = length m) /\
  (forall mcs ms m labels,
     hdbscan_fit_predict L mcs ms m = Some labels ->
     length labels = length m).

(** The clusterer call of the run does not raise. *)
Definition clusterer_accepts (L : libs) (cfg : config) (rnd : randomness)
    (read_ids : list string) (embeddings : matrix) : Prop :=
  forall trained,
    train (optimizer_step L) cfg (loader rnd)
          (init_params rnd, optimizer_init L (init_params rnd))
    = Some trained ->
    hdbscan_fit_predict L (hdbscan_min_cluster_size cfg)
      (hdbscan_min_samples cfg)
      (latent_proj (projected L cfg (fst (fst trained))
                      (aligned_X read_ids embeddings) (eps_final rnd)))
    <> None.

(** [np.isnan(m).any()] *)
Definition has_nan (m : list (list npfloat)) : bool :=
  existsb (existsb isnan) m.

End Spec.
Import Spec.

(** * Reference definitions

    The mathematical notions the properties are measured against, written
    out on their own: none of them uses a function of the script's
    embedding other than the network itself. *)

Module Reference.

(** The sum of a list of numbers. *)
Fixpoint total (l : list R) : R :=
  match l with
  | [] => 0
  | a :: rest => a + total rest
  end.

(** The arithmetic mean of a list of numbers. *)
Definition average (l : list R) : R := total l / INR (length l).

(** The sum of the squared coordinate differences of two vectors. *)
Fixpoint sq_dist (a b : list R) : R :=
  match a, b with
  | x :: a', y :: b' => (x - y) * (x - y) + sq_dist a' b'
  | _, _ => 0
  end.

(** The Euclidean distance of two vectors. *)
Definition euclidean_distance (a b : list R) : R := sqrt (sq_dist a b).

(** The mean squared error of [a] against [b]: the squared differences
    averaged over the coordinates; for two vectors of D coordinates the
    divisor is D. *)
Definition mean_squared_error (a b : list R) : R :=
  sq_dist a b / INR (Nat.min (length a) (length b)).

(** The sum, in row order, of coordinate [j] over the rows whose label is
    [c], on top of [acc]. *)
Fixpoint sum_members (acc : R) (rows : list (list R)) (labels : list Z)
    (c : Z) (j : nat) : R :=
  match rows, labels with
  | x :: rows', l :: labels' =>
      sum_members (if (l =? c)%Z then acc + nth j x 0 else acc)
                  rows' labels' c j
  | _, _ => acc
  end.

(** The arithmetic mean of the rows whose label is [c], for rows of
    [width] columns: coordinate by coordinate, their sum divided by their
    number. *)
Definition mean_of_members (rows : list (list R)) (labels : list Z) (c : Z)
    (width : nat) : list R :=
  map (fun j => sum_members 0 rows labels c j
                / INR (count_occ Z.eq_dec labels c))
      (seq 0 width).

(** [d] is the least Euclidean distance from [x] to the means of the
    clusters, a cluster being the rows of one label other than -1. *)
Definition nearest_mean_distance (rows : list (list R)) (labels : list Z)
    (width : nat) (x : list R) (d : R) : Prop :=
  (exists c, In c labels /\ c <> (-1)%Z /\
             d = euclidean_distance x (mean_of_members rows labels c width)) /\
  (forall c, In c labels -> c <> (-1)%Z ->
             d <= euclidean_distance x (mean_of_members rows labels c width)).

(** A clean vector with a scaled noise vector added. *)
Fixpoint add_noise (std : R) (x noise : list R) : list R :=
  match x, noise with
  | a :: x', n :: noise' => (a + n * std) :: add_noise std x' noise'
  | _, _ => []
  end.

(** KL( N(mu, diag exp(logvar)) || N(0, I) ): the sum of the coordinates'
    divergences. *)
Fixpoint kl_divergence (mu logvar : list R) : R :=
  match mu, logvar with
  | m :: mu', lv :: logvar' => kl_gauss m (exp lv) + kl_divergence mu' logvar'
  | _, _ => 0
  end.

(** One training sample: the noised input is encoded, a latent point is
    sampled and decoded; the two terms of the sample are the mean squared
    error of the reconstruction against the input as it was before the
    noise, and the KL divergence of its posterior. *)
Definition sample_terms (cfg : config) (p : params) (x noise eps : list R)
  : R * R :=
  let x_noisy := add_noise (input_noise_std cfg) x noise in
  let '(mu, logvar) := encode1 p x_noisy in
  (mean_squared_error (decode1 p (reparameterize1 mu logvar eps)) x,
   kl_divergence mu logvar).

(** The terms of the samples of a minibatch. *)
Fixpoint batch_terms (cfg : config) (p : params)
    (x noise eps : list (list R)) : list (R * R) :=
  match x, noise, eps with
  | xr :: x', nr :: noise', er :: eps' =>
      sample_terms cfg p xr nr er :: batch_terms cfg p x' noise' eps'
  | _, _, _ => []
  end.

(** The loss of a minibatch: batch mean of the reconstruction errors plus
    beta times the batch mean of the KL divergences. *)
Definition denoising_elbo (cfg : config) (p : params) (beta : R)
    (x noise eps : list (list R)) : R :=
  average (map fst (batch_terms cfg p x noise eps))
  + beta * average (map snd (batch_terms cfg p x noise eps)).

(** The reconstruction error of one read: the mean squared error, against
    the read's clean input, of the decode of one latent point sampled from
    the read's encoded distribution with the draw [eps]. *)
Definition sampled_error (p : params) (x eps : list R) : R :=
  let '(mu, logvar) := encode1 p x in
  mean_squared_error (decode1 p (reparameterize1 mu logvar eps)) x.

End Reference.
Import Reference.

(** * Concrete instances *)

Module Example.

(** A model with one input, one hidden and one latent unit. *)
Definition tiny_params : params := {|
  fc1 := {| weight := [[1]]; bias := [0] |};
  fc_mu := {| weight := [[1]]; bias := [0] |};
  fc_logvar := {| weight := [[0]]; bias := [0] |};
  fc2 := {| weight := [[1]]; bias := [0] |};
  fc3 := {| weight := [[1]]; bias := [0] |}
|}.

Definition tiny_batch : batch_draw := {|
  x_batch := [[1]; [2]];
  noise_draw := [[1]; [-1]];
  eps_draw := [[0]; [1]]
|}.

(** Stand-ins for the libraries: an optimizer that leaves the model as it
    is, no UMAP, a PCA that returns its input, and a clusterer that puts
    all rows into cluster 0 when there are enough of them and labels
    them noise otherwise. *)
Definition plain_libs : libs := {|
  optimizer_state := unit;
  optimizer_init := fun _ => tt;
  optimizer_step := fun _ st => st;
  standard_scaler := fun m => m;
  has_umap := false;
  umap_fit_transform := fun _ _ => None;
  pca_fit_transform := fun _ m => Some (m, finite 1);
  hdbscan_fit_predict := fun mcs _ m =>
    Some (map (fun _ => if (mcs <=? Z.of_nat (length m))%Z then 0%Z else (-1)%Z) m)
|}.

Definition no_batches : randomness := {|
  init_params := tiny_params;
  loader := fun _ => [];
  eps_final := [[0]; [0]]
|}.

(** The same, with final sampling draws that are not zero. *)
Definition drawn : randomness := {|
  init_params := tiny_params;
  loader := fun _ => [];
  eps_final := [[1]; [-1]]
|}.

Definition three_ids : list string := ["r0"; "r1"; "r2"]%string.
Definition two_rows : matrix := [[1]; [3]].

(** A stand-in PCA that keeps the first [n] columns. *)
Definition first_columns_pca (n : nat) (m : matrix)
  : option (matrix * npfloat) := Some (map (firstn n) m, finite 1).

(** One standardized latent row of the script's 16 latent columns. *)
Definition sixteen_columns : matrix := [repeat 1 16].

(** A UMAP that returns a NaN array without raising. *)
Definition nan_umap (n : nat) (m : list (list npfloat))
  : option (list (list npfloat)) := Some [[nan]].

Definition unit_pca (n : nat) (m : list (list npfloat))
  : option (list (list npfloat) * npfloat) := Some ([[finite 1]], finite 1).

End Example.
Import Example.

(** * Further parts of the script *)

(** ** The epoch log line and the layer shapes *)

Module Logging.

(** Python's [a % b] on integers: raises ZeroDivisionError on [b = 0]. *)
Definition py_mod (a b : Z) : option Z :=
  if (b =? 0)%Z then None else Some (a mod b)%Z.

(** [epoch % max(1, epochs // 10) == 0 or epoch == 1 or epoch == epochs]:
    whether the summary of the epoch is printed. *)
Definition should_log (cfg : config) (epoch : Z) : option bool :=
  match py_mod epoch (Z.max 1 (epochs cfg / 10)) with
  | Some m => Some ((m =? 0)%Z || (epoch =? 1)%Z || (epoch =? epochs cfg)%Z)
  | None => None
  end.

End Logging.
Import Logging.

Module Shapes.

(** [nn.Linear(n_in, n_out)]: [n_out] weight rows and [n_out] biases. *)
Definition linear_out (l : Linear) (n_out : nat) : Prop :=
  length (weight l) = n_out /\ length (bias l) = n_out.

(** [VAE(input_dim, hidden_dim, latent_dim)] as far as the output widths of
    its heads and of its last layer go. *)
Definition vae_shape (p : params) (input_dim latent_dim : nat) : Prop :=
  linear_out (fc_mu p) latent_dim /\
  linear_out (fc_logvar p) latent_dim /\
  linear_out (fc3 p) input_dim.

(** An array of [n] rows and [d] columns. *)
Definition has_shape (m : matrix) (n d : nat) : Prop :=
  length m = n /\ Forall (fun row => length row = d) m.

End Shapes.
Import Shapes.

Module Example2.

(** The script's constants with a shorter training run. *)
Definition short_config : config := {|
  latent_dim := 16;
  hidden_dim := 256;
  batch_size := 128;
  epochs := 12;
  learning_rate := 1 / 1000;
  beta_final := 10;
  beta_warmup_epochs := 10;
  pca_components := 5;
  umap_components := 10;
  input_noise_std := 1 / 100;
  hdbscan_min_cluster_size := 30;
  hdbscan_min_samples := 10
|}.

(** The stand-in libraries with a clusterer that raises on fewer than
    three rows and puts all rows into cluster 0 otherwise. *)
Definition picky_cluster_libs : libs := {|
  optimizer_state := unit;
  optimizer_init := fun _ => tt;
  optimizer_step := fun _ st => st;
  standard_scaler := fun m => m;
  has_umap := false;
  umap_fit_transform := fun _ _ => None;
  pca_fit_transform := fun _ m => Some (m, finite 1);
  hdbscan_fit_predict := fun _ _ m =>
    if (length m <? 3)%nat then None else Some (map (fun _ => 0%Z) m)
|}.

End Example2.
Import Example2.


(** ** File names: [os.path] and the naming of the output files *)

Module Paths.
Import Ascii.
Local Open Scope string_scope.

(** Whether every character of [s] is [c]. *)
Fixpoint all_chars (c : ascii) (s : string) : bool :=
  match s with
  | EmptyString => true
  | String a s' => Ascii.eqb a c && all_chars c s'
  end.

(** [c in s] for a character *)
Fixpoint has_char (c : ascii) (s : string) : bool :=
  match s with
  | EmptyString => false
  | String a s' => Ascii.eqb a c || has_char c s'
  end.

(** With [i = s.rfind(c)]: [(s[:i], s[i+1:])], or [None] when [c] does
    not occur. *)
Fixpoint rsplit (c : ascii) (s : string) : option (string * string) :=
  match s with
  | EmptyString => None
  | String a s' =>
      match rsplit c s' with
      | Some (h, t) => Some (String a h, t)
      | None => if Ascii.eqb a c then Some (EmptyString, s') else None
      end
  end.

(** [s.rstrip('/')] *)
Fixpoint rstrip_slash (s : string) : string :=
  match s with
  | EmptyString => EmptyString
  | String a s' =>
      match rstrip_slash s' with
      | EmptyString => if Ascii.eqb a "/" then EmptyString else String a EmptyString
      | r => String a r
      end
  end.

(** [s.startswith(p)] is [String.prefix p s]; [s.endswith(suffix)]: *)
Fixpoint ends_with (suffix s : string) : bool :=
  (s =? suffix)
  || match s with
     | EmptyString => false
     | String _ s' => ends_with suffix s'
     end.

(** [s[:-n]] for [n > 0] *)
Definition drop_last (n : nat) (s : string) : string :=
  substring 0 (String.length s - n) s.

(** [os.path.basename] *)
Definition basename (p : string) : string :=
  match rsplit "/" p with
  | Some (_, t) => t
  | None => p
  end.

(** [os.path.dirname] *)
Definition dirname (p : string) : string :=
  match rsplit "/" p with
  | Some (h, _) =>
      let head := h ++ "/" in
      if all_chars "/" head then head else rstrip_slash head
  | None => EmptyString
  end.

(** [os.path.splitext]: the extension starts at the last dot of the last
    component, unless only dots precede it there. *)
Definition splitext (p : string) : string * string :=
  match rsplit "." p with
  | Some (h, t) =>
      if has_char "/" t then (p, EmptyString)
      else if all_chars "." (basename h) then (p, EmptyString)
      else (h, String "." t)
  | None => (p, EmptyString)
  end.

(** [os.path.join(a, b)] *)
Definition join (a b : string) : string :=
  if prefix "/" b then b
  else if (a =? "") || ends_with "/" a then a ++ b
  else a ++ "/" ++ b.

(** Truth value of an optional command-line string: [None] and the empty
    string count as false. *)
Definition truthy (o : option string) : bool :=
  match o with
  | Some s => negb (s =? "")
  | None => false
  end.

(** [a or b] *)
Definition py_or (a b : option string) : option string :=
  if truthy a then a else b.

Definition get_base_filename (filepath : string) : string :=
  fst (splitext (basename filepath)).

(** The two [if base_name.endswith(...)] of [generate_output_paths]. *)
Definition strip_embeddings (base_name : string) : string :=
  if ends_with "_embeddings" base_name then drop_last 11 base_name
  else base_name.

Definition strip_dedup_counts (base_name : string) : string :=
  if ends_with "_dedup_counts" base_name then drop_last 13 base_name
  else base_name.

(** The path behind an argument that counts as true. *)
Definition path_of (o : option string) : string :=
  match o with
  | Some s => s
  | None => EmptyString
  end.

(** [(clusters_csv, novelty_csv)] *)
Definition generate_output_paths (embeddings_path dedup_csv_path : option string)
  : string * string :=
  let '(base_name, output_dir) :=
    if truthy embeddings_path then
      (strip_embeddings (get_base_filename (path_of embeddings_path)),
       dirname (path_of embeddings_path))
    else if truthy dedup_csv_path then
      (strip_dedup_counts (get_base_filename (path_of dedup_csv_path)),
       dirname (path_of dedup_csv_path))
    else ("default", "data/processed") in
  (join output_dir (base_name ++ "_clusters.csv"),
   join output_dir (base_name ++ "_novelty_scores.csv")).

(** The arguments of [parse_args]. *)
Record cli_args := {
  arg_embeddings_path : option string;
  arg_dedup_csv_path : option string;
  arg_output_dir : option string;
  arg_base_dir : string
}.

(** The input paths [main] settles on; [auto] is what
    [auto_detect_input_files] returns. *)
Definition resolve_inputs (args : cli_args)
    (auto : option string * option string) : option string * option string :=
  if negb (truthy (arg_embeddings_path args))
     || negb (truthy (arg_dedup_csv_path args))
  then (py_or (arg_embeddings_path args) (fst auto),
        py_or (arg_dedup_csv_path args) (snd auto))
  else (arg_embeddings_path args, arg_dedup_csv_path args).

(** [embeddings_path or dedup_csv_path or "default"] *)
Definition first_path (embeddings_path dedup_csv_path : option string)
  : string :=
  path_of (py_or (py_or embeddings_path dedup_csv_path) (Some "default")).

(** [(out_clusters_csv, out_novelty_csv)] as [main] computes them. *)
Definition output_paths (args : cli_args)
    (embeddings_path dedup_csv_path : option string) : string * string :=
  let generated := generate_output_paths embeddings_path dedup_csv_path in
  if truthy (arg_output_dir args) then
    let base_name :=
      get_base_filename (first_path embeddings_path dedup_csv_path) in
    let base_name :=
      if ends_with "_embeddings" base_name then drop_last 11 base_name
      else if ends_with "_dedup_counts" base_name then drop_last 13 base_name
      else base_name in
    (join (path_of (arg_output_dir args)) (base_name ++ "_clusters.csv"),
     join (path_of (arg_output_dir args)) (base_name ++ "_novelty_scores.csv"))
  else generated.

(** [find_latest_file_with_pattern]: [glob] lists the files that match a
    pattern and [getmtime] gives their modification times. *)
Section Discovery.
Variable glob : string -> list string.
Variable getmtime : string -> R.

(** The first file of the newest modification time: what
    [found_files.sort(key=os.path.getmtime, reverse=True)] puts in front,
    the sort being stable. *)
Fixpoint newest (best : string) (files : list string) : string :=
  match files with
  | [] => best
  | f :: rest =>
      if Rlt_dec (getmtime best) (getmtime f) then newest f rest
      else newest best rest
  end.

Definition find_latest_file_with_pattern (base_dir pattern : string)
  : option string :=
  let search_paths :=
    [join (join base_dir "**") pattern; join base_dir pattern; pattern] in
  let found_files := flat_map glob search_paths in
  match found_files with
  | [] => None
  | f :: rest => Some (newest f rest)
  end.

Definition auto_detect_input_files (base_dir : string)
  : option string * option string :=
  (find_latest_file_with_pattern base_dir "*_embeddings.npy",
   find_latest_file_with_pattern base_dir "*_dedup_counts.csv").
End Discovery.

End Paths.


(** ** The pipeline runner ([pipeline/scripts/run_pipeline.py]) *)

Module Runner.
Import Paths.
Local Open Scope string_scope.

(** [sub in s] *)
Fixpoint contains (sub s : string) : bool :=
  prefix sub s
  || match s with
     | EmptyString => false
     | String _ s' => contains sub s'
     end.

(** [s.replace(old, new)] for a non-empty [old]: the occurrences are
    replaced from the left without overlap; [skip] characters of an
    occurrence already replaced are still to be passed over. *)
Fixpoint replace_from (old new : string) (skip : nat) (s : string) : string :=
  match s with
  | EmptyString => EmptyString
  | String a s' =>
      match skip with
      | S k => replace_from old new k s'
      | O =>
          if prefix old s
          then new ++ replace_from old new (String.length old - 1) s'
          else String a (replace_from old new 0 s')
      end
  end.

Definition replace (old new s : string) : string := replace_from old new 0 s.

(** The [paths] dictionary. *)
Record pipeline_paths := {
  input_fasta : string;
  output_dir : string;
  base_name : string;
  cleaned_fasta : string;
  dedup_csv : string;
  embeddings_npy : string;
  clusters_csv : string;
  novelty_csv : string;
  phylo_output : string;
  cluster_extract_dir : string
}.

(** [setup_directories], given [os.path.abspath]. *)
Definition setup_directories (abspath : string -> string) (fasta : string)
  : pipeline_paths :=
  let base := get_base_filename fasta in
  let input_dir := dirname (abspath fasta) in
  let processed_base :=
    if contains "raw" input_dir then replace "raw" "processed" input_dir
    else join (dirname input_dir) "processed" in
  let out := join processed_base (base ++ "_processed") in
  {| input_fasta := fasta;
     output_dir := out;
     base_name := base;
     cleaned_fasta := join out (base ++ "_cleaned.fasta");
     dedup_csv := join out (base ++ "_dedup_counts.csv");
     embeddings_npy := join out (base ++ "_embeddings.npy");
     clusters_csv := join out (base ++ "_clusters.csv");
     novelty_csv := join out (base ++ "_novelty_scores.csv");
     phylo_output := join out (base ++ "_phylogeny.png");
     cluster_extract_dir := join out "cluster_representatives" |}.

(** The arguments of the runner's [parse_args]. *)
Record runner_args := {
  arg_input_fasta : string;
  skip_phylo : bool;
  skip_extract : bool;
  embedding_method : string;
  resume_from : option Z
}.

(** [not args.resume_from or args.resume_from <= k] *)
Definition step_enabled (args : runner_args) (k : Z) : bool :=
  match resume_from args with
  | None => true
  | Some r => (r =? 0)%Z || (r <=? k)%Z
  end.

(** The command line with which step 3 starts the clustering script, as
    that script's [parse_args] reads it. *)
Definition vae_cluster_args (paths : pipeline_paths) : cli_args :=
  {| arg_embeddings_path := Some (embeddings_npy paths);
     arg_dedup_csv_path := Some (dedup_csv paths);
     arg_output_dir := Some (output_dir paths);
     arg_base_dir := "data/processed" |}.

Section Orchestrator.
(** The file system and the child processes. *)
Variable world : Type.
Variable path_exists : string -> world -> bool.
(** [subprocess.run(cmd, check=True)]: [true] when the exit status is 0. *)
Variable run_subprocess : list string -> world -> bool * world.
Variable makedirs : string -> world -> world.
Variable abspath : string -> string.
(** [sys.executable] and [os.path.dirname(__file__)] *)
Variable python : string.
Variable script_dir : string.

(** The run so far: the commands started, the world, and the exit status
    once [sys.exit] was called. *)
Record run_state := {
  started : list (list string);
  now : world;
  exit_status : option Z
}.

Definition script (name : string) : string := join script_dir name.

Definition preprocess_cmd (paths : pipeline_paths) : list string :=
  [python; script "preprocess.py"; input_fasta paths; output_dir paths].

Definition embeddings_cmd (args : runner_args) (paths : pipeline_paths)
  : list string :=
  [python; script "get_embeddings.py"; cleaned_fasta paths;
   embeddings_npy paths; "--method"; embedding_method args].

Definition vae_cluster_cmd (paths : pipeline_paths) : list string :=
  [python; script "vae_cluster.py";
   "--embeddings_path"; embeddings_npy paths;
   "--dedup_csv_path"; dedup_csv paths;
   "--output_dir"; output_dir paths].

Definition phylo_cmd (paths : pipeline_paths) : list string :=
  [python; script "phylo_vis.py"; clusters_csv paths].

Definition extract_cmd (paths : pipeline_paths) : list string :=
  [python; script "cluster_extract.py"; input_fasta paths; clusters_csv paths].

(** [run_command] *)
Definition run_command (cmd : list string) (s : run_state)
  : bool * run_state :=
  let '(ok, w) := run_subprocess cmd (now s) in
  (ok, {| started := started s ++ [cmd]; now := w;
          exit_status := exit_status s |}).

Definition sys_exit (status : Z) (s : run_state) : run_state :=
  {| started := started s; now := now s; exit_status := Some status |}.

(** A step whose failure, or whose missing output, ends the run. *)
Definition required_step (enabled : bool) (cmd : list string)
    (outputs : list string) (s : run_state) : run_state :=
  match exit_status s with
  | Some _ => s
  | None =>
      if enabled then
        let '(ok, s') := run_command cmd s in
        if negb ok then sys_exit 1 s'
        else if forallb (fun f => path_exists f (now s')) outputs then s'
        else sys_exit 1 s'
      else s
  end.

(** A step whose failure is reported and passed over. *)
Definition optional_step (enabled : bool) (cmd : list string) (s : run_state)
  : run_state :=
  match exit_status s with
  | Some _ => s
  | None => if enabled then snd (run_command cmd s) else s
  end.

(** The runner's [main] up to step 1: the input check and
    [setup_directories]. *)
Definition start (args : runner_args) (w : world) : run_state :=
  let s0 := {| started := []; now := w; exit_status := None |} in
  if negb (path_exists (arg_input_fasta args) w) then sys_exit 1 s0 else
  let paths := setup_directories abspath (arg_input_fasta args) in
  {| started := []; now := makedirs (output_dir paths) w;
     exit_status := None |}.

(** Steps 1 to 3, which the run cannot do without. *)
Definition step1 (args : runner_args) (paths : pipeline_paths)
    (s : run_state) : run_state :=
  required_step (step_enabled args 1) (preprocess_cmd paths)
                [cleaned_fasta paths; dedup_csv paths] s.

Definition step2 (args : runner_args) (paths : pipeline_paths)
    (s : run_state) : run_state :=
  required_step (step_enabled args 2) (embeddings_cmd args paths)
                [embeddings_npy paths] s.

Definition step3 (args : runner_args) (paths : pipeline_paths)
    (s : run_state) : run_state :=
  required_step (step_enabled args 3) (vae_cluster_cmd paths)
                [clusters_csv paths; novelty_csv paths] s.

(** Steps 4 and 5, which may fail. *)
Definition step4 (args : runner_args) (paths : pipeline_paths)
    (s : run_state) : run_state :=
  optional_step (negb (skip_phylo args) && step_enabled args 4)
                (phylo_cmd paths) s.

Definition step5 (args : runner_args) (paths : pipeline_paths)
    (s : run_state) : run_state :=
  optional_step (negb (skip_extract args) && step_enabled args 5)
                (extract_cmd paths) s.

(** The runner's [main]. *)
Definition run_pipeline (args : runner_args) (w : world) : run_state :=
  let paths := setup_directories abspath (arg_input_fasta args) in
  step5 args paths
    (step4 args paths
       (step3 args paths
          (step2 args paths
             (step1 args paths (start args w))))).

(** What can happen to a step, in terms of the child process and the
    files alone.  The step fails in world [w]: its command returns a
    non-zero status, or one of the files it should leave is not there once
    the command has run. *)
Definition step_fails (cmd : list string) (outputs : list string)
    (w : world) : Prop :=
  fst (run_subprocess cmd w) = false \/
  exists f, In f outputs /\
            path_exists f (snd (run_subprocess cmd w)) = false.

(** The step, when it is enabled, succeeds in world [w]. *)
Definition step_succeeds (enabled : bool) (cmd : list string)
    (outputs : list string) (w : world) : Prop :=
  enabled = true ->
  fst (run_subprocess cmd w) = true /\
  forall f, In f outputs ->
            path_exists f (snd (run_subprocess cmd w)) = true.

(** The world after a step that starts its command when it is enabled. *)
Definition world_after (enabled : bool) (cmd : list string) (w : world)
  : world :=
  if enabled then snd (run_subprocess cmd w) else w.

(** The commands of the steps that the arguments enable, in order. *)
Definition enabled_commands (args : runner_args) : list (list string) :=
  let paths := setup_directories abspath (arg_input_fasta args) in
  (if step_enabled args 1 then [preprocess_cmd paths] else [])
  ++ (if step_enabled args 2 then [embeddings_cmd args paths] else [])
  ++ (if step_enabled args 3 then [vae_cluster_cmd paths] else [])
  ++ (if negb (skip_phylo args) && step_enabled args 4
      then [phylo_cmd paths] else [])
  ++ (if negb (skip_extract args) && step_enabled args 5
      then [extract_cmd paths] else []).
End Orchestrator.

End Runner.


(** ** Loading the identifiers *)

Module Loading.

(** [str(i)] for an index *)
Definition index_string (i : nat) : string :=
  DecimalString.NilZero.string_of_uint (Nat.to_uint i).

(** [np.arange(n).astype(str)] *)
Definition default_read_ids (n : nat) : list string :=
  map index_string (seq 0 n).

(** The identifiers [main] works with: the first column of the identifier
    file, or the row indices when that file is not given or not there
    ([dedup_ids = None]). *)
Definition load_read_ids (dedup_ids : option (list string))
    (embeddings : matrix) : list string :=
  match dedup_ids with
  | Some ids => ids
  | None => default_read_ids (length embeddings)
  end.

End Loading.
Import Loading.

(** ** The save step of [main] *)

Module Saving.
Import Paths.

(** The file-system calls of the save step, as the run meets them;
    [false]: the call raises. *)
Record filesystem := {
  (** [os.makedirs(d, exist_ok=True)] for a directory name [d] *)
  makedirs_ok : string -> bool;
  (** [DataFrame.to_csv(path, index=False)] *)
  to_csv_ok : string -> bool
}.

(** [os.makedirs(d, exist_ok=True)]: the empty string names no directory,
    and the call raises FileNotFoundError for it. *)
Definition os_makedirs (fs : filesystem) (d : string) : bool :=
  if (d =? "")%string then false else makedirs_ok fs d.

Inductive table :=
| clusters_table (rows : list (string * Z))
| novelty_table (rows : list (string * R * npfloat)).

(** What [main] holds when it reaches the save step. *)
Record analysis := {
  kept_ids : list string;
  labels : list Z;
  errors : vec;
  distances : list npfloat;
  messages : list string
}.

(** [main] from the length check to the cluster distances; [None]: the
    run aborts there. *)
Definition analyse (L : libs) (cfg : config) (rnd : randomness)
    (read_ids : list string) (embeddings : matrix) : option analysis :=
  let '(read_ids, embeddings, log0) := align read_ids embeddings in
  if (size embeddings =? 0)%nat then None else
  let X_all := embeddings in
  let st0 := (init_params rnd, optimizer_init L (init_params rnd)) in
  trained <- train (optimizer_step L) cfg (loader rnd) st0 ;;
  let vae := fst (fst trained) in
  let '(latent, recon_errors) := extract vae X_all (eps_final rnd) in
  let latent_scaled := standard_scaler L latent in
  let proj :=
    reduce (has_umap L) (umap_fit_transform L) (pca_fit_transform L)
           cfg latent_scaled in
  cluster_labels <-
    hdbscan_fit_predict L (hdbscan_min_cluster_size cfg)
                        (hdbscan_min_samples cfg) (latent_proj proj) ;;
  cluster_distance <- cluster_distance (latent_proj proj) cluster_labels ;;
  Some {| kept_ids := read_ids;
          labels := cluster_labels;
          errors := recon_errors;
          distances := cluster_distance;
          messages := log0 ++ events proj |}.

(** The save step: the files written, in the order of the writes, and
    whether the step reached its end. *)
Definition save_outputs (fs : filesystem)
    (out_clusters_csv out_novelty_csv : string) (a : analysis)
  : list (string * table) * bool :=
  if negb (os_makedirs fs (dirname out_clusters_csv)) then ([], false) else
  if negb (os_makedirs fs (dirname out_novelty_csv)) then ([], false) else
  match clusters_frame (kept_ids a) (labels a) with
  | None => ([], false)
  | Some clusters_df =>
      if negb (to_csv_ok fs out_clusters_csv) then ([], false) else
      let written := [(out_clusters_csv, clusters_table clusters_df)] in
      match novelty_frame (kept_ids a) (errors a) (distances a) with
      | None => (written, false)
      | Some novelty_df =>
          if negb (to_csv_ok fs out_novelty_csv) then (written, false)
          else (written ++ [(out_novelty_csv, novelty_table novelty_df)],
                true)
      end
  end.

(** The script after its two input files are loaded. *)
Definition run_script (fs : filesystem) (L : libs) (cfg : config)
    (rnd : randomness) (out_clusters_csv out_novelty_csv : string)
    (read_ids : list string) (embeddings : matrix)
  : list (string * table) * bool :=
  match analyse L cfg rnd read_ids embeddings with
  | Some a => save_outputs fs out_clusters_csv out_novelty_csv a
  | None => ([], false)
  end.

End Saving.
Import Saving.

Module Example3.
Import Runner.

(** A runner call that resumes at step 3 and skips the phylogeny. *)
Definition resume_at_3 : runner_args := {|
  arg_input_fasta := "data/raw/s.fasta"%string;
  skip_phylo := true;
  skip_extract := false;
  embedding_method := "transformer"%string;
  resume_from := Some 3%Z
|}.

(** A world in which every file exists and every command succeeds. *)
Definition all_there (f : string) (w : unit) : bool := true.
Definition always_ok (cmd : list string) (w : unit) : bool * unit := (true, w).
Definition no_makedirs (d : string) (w : unit) : unit := w.
Definition under_w (p : string) : string := ("/w/" ++ p)%string.

(** A runner call from the first step, with every step enabled. *)
Definition from_start : runner_args := {|
  arg_input_fasta := "data/raw/s.fasta"%string;
  skip_phylo := false;
  skip_extract := false;
  embedding_method := "transformer"%string;
  resume_from := None
|}.

(** Child processes that all fail. *)
Definition never_ok (cmd : list string) (w : unit) : bool * unit := (false, w).

(** A fresh run: the world counts the commands that have run; the input
    file is there from the start, any other file once a command has run. *)
Definition fresh_exists (f : string) (w : nat) : bool :=
  (f =? "data/raw/s.fasta")%string || (0 <? w)%nat.
Definition counting_ok (cmd : list string) (w : nat) : bool * nat :=
  (true, S w).
Definition keep_world (d : string) (w : nat) : nat := w.

(** A file system on which every call of the save step succeeds. *)
Definition writable : filesystem := {|
  makedirs_ok := fun _ => true;
  to_csv_ok := fun _ => true
|}.

End Example3.
Import Example3.

(** * Properties *)

(** ** The beta schedule *)

Lemma beta_schedule_warmup (cfg : config) (e : Z) :
  (0 < beta_warmup_epochs cfg)%Z -> (e <= beta_warmup_epochs cfg)%Z ->
  beta_schedule cfg e = IZR e / IZR (beta_warmup_epochs cfg) * beta_final cfg.
Proof.
  intros HW He. unfold beta_schedule.
  replace (e <=? beta_warmup_epochs cfg)%Z with true
    by (symmetry; apply Z.leb_le; exact He).
  replace (beta_warmup_epochs cfg >? 0)%Z with true
    by (symmetry; apply Z.gtb_lt; exact HW).
  reflexivity.
Qed.

Lemma beta_schedule_after (cfg : config) (e : Z) :
  (beta_warmup_epochs cfg < e)%Z -> beta_schedule cfg e = beta_final cfg.
Proof.
  intros He. unfold beta_schedule.
  replace (e <=? beta_warmup_epochs cfg)%Z with false
    by (symmetry; apply Z.leb_gt; exact He).
  reflexivity.
Qed.

Lemma warmup_fraction_le_1 (W e : Z) :
  (0 < W)%Z -> (e <= W)%Z -> IZR e / IZR W <= 1.
Proof.
  intros HW He. apply IZR_lt in HW. apply IZR_le in He.
  apply Rmult_le_reg_r with (r := IZR W); [exact HW|].
  unfold Rdiv. rewrite Rmult_assoc, Rinv_l by lra. lra.
Qed.

Lemma warmup_fraction_mono (W e1 e2 : Z) :
  (0 < W)%Z -> (e1 <= e2)%Z -> IZR e1 / IZR W <= IZR e2 / IZR W.
Proof.
  intros HW He. apply IZR_lt in HW. apply IZR_le in He.
  unfold Rdiv. apply Rmult_le_compat_r; [|exact He].
  left. apply Rinv_0_lt_compat. exact HW.
Qed.

(** C1. With a warm-up length W > 0, the KL weight of epoch e in 1..E is
    (e / W) * beta_final for e <= W and beta_final for e > W; hence
    beta(1) = beta_final / W, beta is beta_final beyond the warm-up, and
    (the final weight being non-negative, as a KL weight is) beta is
    non-decreasing in the epoch. *)
Theorem beta_schedule_linear_warmup (cfg : config)
    (HW : (0 < beta_warmup_epochs cfg)%Z) :
  (forall e, (1 <= e <= epochs cfg)%Z ->
     ((e <= beta_warmup_epochs cfg)%Z ->
        beta_schedule cfg e
        = IZR e / IZR (beta_warmup_epochs cfg) * beta_final cfg) /\
     ((beta_warmup_epochs cfg < e)%Z ->
        beta_schedule cfg e = beta_final cfg)) /\
  beta_schedule cfg 1 = beta_final cfg / IZR (beta_warmup_epochs cfg) /\
  (0 <= beta_final cfg ->
   forall e1 e2, (1 <= e1 <= e2)%Z ->
     beta_schedule cfg e1 <= beta_schedule cfg e2).
Proof.
  split; [|split].
  - intros e _. split.
    + apply beta_schedule_warmup; assumption.
    + apply beta_schedule_after.
  - rewrite beta_schedule_warmup by lia. unfold Rdiv. ring.
  - intros Hb e1 e2 [H1 H12].
    destruct (Z_le_gt_dec e2 (beta_warmup_epochs cfg)) as [H2|H2].
    + rewrite !beta_schedule_warmup by lia.
      apply Rmult_le_compat_r; [exact Hb|].
      apply warmup_fraction_mono; assumption.
    + rewrite (beta_schedule_after cfg e2) by lia.
      destruct (Z_le_gt_dec e1 (beta_warmup_epochs cfg)) as [H1'|H1'].
      * rewrite beta_schedule_warmup by lia.
        pose proof (warmup_fraction_le_1 _ _ HW H1') as Hf.
        rewrite <- (Rmult_1_l (beta_final cfg)) at 2.
        apply Rmult_le_compat_r; assumption.
      * rewrite beta_schedule_after by lia. lra.
Qed.

(** The schedule of the script's own constants: W = 10, beta_final = 10. *)
Lemma beta_schedule_linear_warmup_witness :
  beta_schedule default_config 1 = 10 / 10 /\
  beta_schedule default_config 3 <= beta_schedule default_config 50.
Proof.
  assert (HW : (0 < beta_warmup_epochs default_config)%Z) by (simpl; lia).
  destruct (beta_schedule_linear_warmup default_config HW) as (_ & H1 & Hmono).
  split.
  - exact H1.
  - apply Hmono; [simpl; lra | lia].
Defined.

(** In binary64, with the script's constants (beta_final = 10.0, warm-up
    10, 50 epochs), the schedule is 1.0, 2.0, ..., 10.0 and then 10.0: it
    is non-decreasing and beta(1) is exactly beta_final / W. *)
Example binary64_schedule_of_the_script :
  Binary64.nondecreasing (Binary64.betas Binary64.ten 10 50) = true /\
  PrimFloat.eqb (Binary64.beta_schedule Binary64.ten 10 1)
                (PrimFloat.div Binary64.ten Binary64.ten) = true /\
  PrimFloat.eqb (Binary64.beta_schedule Binary64.ten 10 11) Binary64.ten = true.
Proof. vm_compute. repeat split. Qed.

(** For other warm-up lengths the two sides of beta(1) = beta_final / W can
    differ in the last bit: (1.0 / 3.0) * 10.0 is below 10.0 / 3.0. *)
Example binary64_rounding_at_warmup_3 :
  PrimFloat.ltb (Binary64.beta_schedule Binary64.ten 3 1)
                (PrimFloat.div Binary64.ten Binary64.three) = true.
Proof. vm_compute. reflexivity. Qed.

(** ** The epoch averages *)

Section EpochAverages.
Context {optimizer_state : Type}.
Variable optimizer_step :
  (params -> R) -> params * optimizer_state -> params * optimizer_state.

Lemma fold_train_batch_counts (cfg : config) (beta : R)
    (loader : list batch_draw) :
  forall acc,
    n_batches (snd (fold_left (train_batch optimizer_step cfg beta) loader acc))
    = (n_batches (snd acc) + Z.of_nat (length loader))%Z.
Proof.
  induction loader as [|b bs IH]; intros [st t].
  - simpl. lia.
  - cbn [fold_left length]. rewrite IH.
    unfold train_batch.
    destruct (batch_losses cfg beta b (fst st)) as [[r k] l].
    cbn [snd n_batches]. lia.
Qed.

Lemma run_batches_counts (cfg : config) (beta : R)
    (st : params * optimizer_state) (loader : list batch_draw) :
  n_batches (snd (run_batches optimizer_step cfg beta st loader))
  = Z.of_nat (length loader).
Proof.
  unfold run_batches. rewrite fold_train_batch_counts. simpl. lia.
Qed.

Lemma py_div_max_1 (a : R) (n : Z) :
  py_div a (Z.max 1 n) = Some (a / IZR (Z.max 1 n)).
Proof.
  unfold py_div.
  destruct (Z.eqb_spec (Z.max 1 n) 0) as [E|E]; [lia | reflexivity].
Qed.

Lemma epoch_averages_defined (beta : R) (t : totals) :
  epoch_averages beta t
  = Some {| avg_recon := total_recon t / IZR (Z.max 1 (n_batches t));
            avg_kld := total_kld t / IZR (Z.max 1 (n_batches t));
            avg_loss := total_loss t / IZR (Z.max 1 (n_batches t));
            beta_used := beta |}.
Proof.
  unfold epoch_averages. rewrite !py_div_max_1. reflexivity.
Qed.

(** C10. Every epoch, whatever the loader yields, ends with its three
    averages computed: the divisor is max(1, n_batches), where n_batches
    is the number of minibatches processed, so it is never zero and no
    division raises; an epoch without minibatches has the averages 0. *)
Theorem epoch_averages_never_divide_by_zero (cfg : config) (epoch : Z)
    (loader : list batch_draw) (st : params * optimizer_state) :
  let beta := beta_schedule cfg epoch in
  let st' := fst (run_batches optimizer_step cfg beta st loader) in
  let t := snd (run_batches optimizer_step cfg beta st loader) in
  n_batches t = Z.of_nat (length loader) /\
  Z.max 1 (n_batches t) <> 0%Z /\
  train_epoch optimizer_step cfg epoch loader st
  = Some (st',
          {| avg_recon := total_recon t / IZR (Z.max 1 (n_batches t));
             avg_kld := total_kld t / IZR (Z.max 1 (n_batches t));
             avg_loss := total_loss t / IZR (Z.max 1 (n_batches t));
             beta_used := beta |}) /\
  train_epoch optimizer_step cfg epoch [] st
  = Some (st, {| avg_recon := 0 / 1; avg_kld := 0 / 1; avg_loss := 0 / 1;
                 beta_used := beta |}).
Proof.
  intros beta st' t. split; [|split; [|split]].
  - apply run_batches_counts.
  - lia.
  - unfold train_epoch. fold beta.
    destruct (run_batches optimizer_step cfg beta st loader) as [s tt] eqn:E.
    subst st' t. cbn [fst snd].
    rewrite epoch_averages_defined. reflexivity.
  - unfold train_epoch. fold beta. cbn [run_batches fold_left].
    rewrite epoch_averages_defined. reflexivity.
Qed.

(** The training loop as a whole never raises. *)
Lemma train_epoch_total (cfg : config) (epoch : Z)
    (loader : list batch_draw) (st : params * optimizer_state) :
  exists r, train_epoch optimizer_step cfg epoch loader st = Some r.
Proof.
  unfold train_epoch.
  destruct (run_batches optimizer_step cfg (beta_schedule cfg epoch) st loader)
    as [s t].
  rewrite epoch_averages_defined. eexists. reflexivity.
Qed.

Lemma train_total (cfg : config) (loader : Z -> list batch_draw)
    (st : params * optimizer_state) :
  exists r, train optimizer_step cfg loader st = Some r.
Proof.
  unfold train.
  assert (H : forall es st history,
    exists r,
      fold_left
        (fun acc epoch =>
           match acc with
           | Some (st, history) =>
               match train_epoch optimizer_step cfg epoch (loader epoch) st with
               | Some (st', s) => Some (st', history ++ [s])
               | None => None
               end
           | None => None
           end)
        es (Some (st, history)) = Some r).
  { induction es as [|e es IH]; intros st0 history.
    - simpl. eexists. reflexivity.
    - cbn [fold_left].
      destruct (train_epoch_total cfg e (loader e) st0) as [[st' s] E].
      rewrite E. apply IH. }
  apply H.
Qed.
End EpochAverages.

(** ** Zips and maps *)

Lemma zip_with_map_same {A B C D : Type} (f : B -> C -> D) (g : A -> B)
    (h : A -> C) (l : list A) :
  zip_with f (map g l) (map h l) = map (fun a => f (g a) (h a)) l.
Proof.
  induction l as [|a l IH]; simpl; [reflexivity | now rewrite IH].
Qed.

Lemma zip_with3_map_same {A B C E D : Type} (f : B -> C -> E -> D)
    (g : A -> B) (h : A -> C) (l : list A) :
  forall es, zip_with3 f (map g l) (map h l) es
             = zip_with (fun a e => f (g a) (h a) e) l es.
Proof.
  induction l as [|a l IH]; intros [|e es]; simpl; try reflexivity.
  now rewrite IH.
Qed.

Lemma map_zip_with {A B C D : Type} (f : C -> D) (g : A -> B -> C)
    (xs : list A) :
  forall ys, map f (zip_with g xs ys) = zip_with (fun a b => f (g a b)) xs ys.
Proof.
  induction xs as [|a xs IH]; intros [|b ys]; simpl; try reflexivity.
  now rewrite IH.
Qed.

Lemma zip_with_map_l {A A' B C : Type} (f : A' -> B -> C) (g : A -> A')
    (xs : list A) :
  forall ys, zip_with f (map g xs) ys = zip_with (fun a b => f (g a) b) xs ys.
Proof.
  induction xs as [|a xs IH]; intros [|b ys]; simpl; try reflexivity.
  now rewrite IH.
Qed.

Lemma zip_with_ext {A B C : Type} (f g : A -> B -> C) (xs : list A) :
  forall ys, (forall a b, f a b = g a b) -> zip_with f xs ys = zip_with g xs ys.
Proof.
  induction xs as [|a xs IH]; intros [|b ys] H; simpl; try reflexivity.
  rewrite H, IH by exact H. reflexivity.
Qed.

Lemma zip_with_length {A B C : Type} (f : A -> B -> C) (xs : list A) :
  forall ys, length (zip_with f xs ys) = Nat.min (length xs) (length ys).
Proof.
  induction xs as [|a xs IH]; intros [|b ys]; simpl; try reflexivity.
  now rewrite IH.
Qed.

Lemma zip_with_nth_error {A B C : Type} (f : A -> B -> C) (xs : list A) :
  forall ys i a b,
    nth_error xs i = Some a -> nth_error ys i = Some b ->
    nth_error (zip_with f xs ys) i = Some (f a b).
Proof.
  induction xs as [|x xs IH]; intros [|y ys] [|i] a b Ha Hb; simpl in *;
    try discriminate.
  - congruence.
  - eapply IH; eassumption.
Qed.

Lemma zip_with_map_r {A B B' C : Type} (f : A -> B' -> C) (g : B -> B')
    (xs : list A) :
  forall ys, zip_with f xs (map g ys) = zip_with (fun a b => f a (g b)) xs ys.
Proof.
  induction xs as [|a xs IH]; intros [|b ys]; simpl; try reflexivity.
  now rewrite IH.
Qed.

Lemma vsum_nil : vsum [] = 0.
Proof. reflexivity. Qed.

Lemma vsum_cons (a : R) (v : vec) : vsum (a :: v) = a + vsum v.
Proof. reflexivity. Qed.

(** ** The loss of a minibatch *)

Lemma kld_closed_form (mu logvar : vec) :
  -0.5 * vsum (zip_with (fun mj lj => 1 + lj - mj ^ 2 - exp lj) mu logvar)
  = kl_to_standard_normal mu logvar.
Proof.
  unfold kl_to_standard_normal. revert logvar.
  induction mu as [|m mu IH]; intros [|l logvar]; cbn [zip_with];
    rewrite ?vsum_nil, ?vsum_cons; try lra.
  rewrite <- IH. unfold kl_gauss. rewrite ln_exp. lra.
Qed.

Lemma add_input_noise_rows (cfg : config) (x noise : matrix) :
  0 < input_noise_std cfg ->
  add_input_noise cfg x noise
  = zip_with (fun xr nr => vadd xr (map (fun n => n * input_noise_std cfg) nr))
             x noise.
Proof.
  intros Hstd. unfold add_input_noise.
  destruct (Rlt_dec 0 (input_noise_std cfg)) as [_|N]; [|contradiction].
  rewrite zip_with_map_r. reflexivity.
Qed.

Lemma batch_losses_per_sample (cfg : config) (beta : R) (b : batch_draw)
    (p : params) :
  0 < input_noise_std cfg ->
  batch_loss cfg beta b p
  = denoising_loss cfg p beta (x_batch b) (noise_draw b) (eps_draw b).
Proof.
  intros Hstd.
  unfold batch_loss, batch_losses, denoising_loss, forward, encode, vae_losses.
  rewrite add_input_noise_rows by exact Hstd.
  generalize (zip_with
                (fun xr nr => vadd xr (map (fun n => n * input_noise_std cfg) nr))
                (x_batch b) (noise_draw b)) as xn.
  intros xn.
  cbn [snd]. unfold reparameterize, decode.
  rewrite zip_with3_map_same, map_zip_with, zip_with_map_same.
  rewrite zip_with_map_l, map_map.
  f_equal. f_equal. f_equal.
  apply map_ext. intros a. apply kld_closed_form.
Qed.

(** *** The script's arithmetic against the reference definitions *)

Lemma vsum_total (l : vec) : vsum l = total l.
Proof.
  induction l as [|a l IH]; [reflexivity|].
  rewrite vsum_cons, IH. reflexivity.
Qed.

Lemma mean_average (l : vec) : mean l = average l.
Proof. unfold mean, average. rewrite vsum_total. reflexivity. Qed.

Lemma vsub_squares (a : vec) :
  forall b, vsum (map (fun d => d ^ 2) (vsub a b)) = sq_dist a b.
Proof.
  unfold vsub.
  induction a as [|x a IH]; intros [|y b]; cbn [zip_with map sq_dist];
    rewrite ?vsum_nil, ?vsum_cons; try reflexivity.
  rewrite IH. simpl. ring.
Qed.

Lemma mse_row_mean_squared_error (a b : vec) :
  mse_row a b = mean_squared_error a b.
Proof.
  unfold mse_row, mean, mean_squared_error.
  rewrite vsub_squares, length_map. unfold vsub.
  rewrite zip_with_length. reflexivity.
Qed.

Lemma euclidean_euclidean_distance (a b : vec) :
  euclidean a b = euclidean_distance a b.
Proof. unfold euclidean, euclidean_distance. now rewrite vsub_squares. Qed.

Lemma kl_to_standard_normal_divergence (mu : vec) :
  forall logvar, kl_to_standard_normal mu logvar = kl_divergence mu logvar.
Proof.
  unfold kl_to_standard_normal.
  induction mu as [|m mu IH]; intros [|lv logvar];
    cbn [zip_with kl_divergence]; rewrite ?vsum_nil, ?vsum_cons;
    try reflexivity.
  rewrite IH. reflexivity.
Qed.

Lemma vadd_scaled_noise (std : R) (x : vec) :
  forall noise,
    vadd x (map (fun n => n * std) noise) = add_noise std x noise.
Proof.
  unfold vadd.
  induction x as [|a x IH]; intros [|n noise]; cbn [map zip_with add_noise];
    try reflexivity.
  rewrite IH. reflexivity.
Qed.

Lemma denoising_loss_terms (cfg : config) (p : params) (x : matrix) :
  forall noise eps,
    length noise = length x -> length eps = length x ->
    zip_with mse_row
      (zip_with (fun ml e => decode1 p (reparameterize1 (fst ml) (snd ml) e))
         (map (encode1 p)
            (zip_with
               (fun xr nr => vadd xr (map (fun n => n * input_noise_std cfg) nr))
               x noise))
         eps)
      x
    = map fst (batch_terms cfg p x noise eps) /\
    map (fun ml => kl_to_standard_normal (fst ml) (snd ml))
      (map (encode1 p)
         (zip_with
            (fun xr nr => vadd xr (map (fun n => n * input_noise_std cfg) nr))
            x noise))
    = map snd (batch_terms cfg p x noise eps).
Proof.
  induction x as [|xr x IH]; intros [|nr noise] [|er eps] Hn He;
    simpl in Hn, He; try discriminate; [split; reflexivity|].
  destruct (IH noise eps) as [IHr IHk]; [lia | lia |].
  cbn [zip_with map batch_terms]. rewrite IHr, IHk.
  unfold sample_terms. rewrite vadd_scaled_noise.
  destruct (encode1 p (add_noise (input_noise_std cfg) xr nr)) as [mu logvar].
  cbn [fst snd].
  rewrite mse_row_mean_squared_error, kl_to_standard_normal_divergence.
  split; reflexivity.
Qed.

Lemma batch_loss_denoising_elbo (cfg : config) (beta : R) (b : batch_draw)
    (p : params) :
  0 < input_noise_std cfg ->
  length (noise_draw b) = length (x_batch b) ->
  length (eps_draw b) = length (x_batch b) ->
  batch_loss cfg beta b p
  = denoising_elbo cfg p beta (x_batch b) (noise_draw b) (eps_draw b).
Proof.
  intros Hstd Hn He. rewrite batch_losses_per_sample by exact Hstd.
  unfold denoising_loss, denoising_elbo.
  destruct (denoising_loss_terms cfg p (x_batch b) (noise_draw b) (eps_draw b)
              Hn He) as [Hr Hk].
  rewrite Hr, Hk, !mean_average. reflexivity.
Qed.

(** C4. In every training minibatch (the two draws having one row per
    sample) the noise, a draw scaled by the positive input_noise_std, is
    added to the input before it is encoded, while the reconstruction is
    compared with the input without the noise; the loss handed to the
    optimizer is the batch mean of the per-sample mean squared
    reconstruction error plus beta times the batch mean of the per-sample
    KL divergence of the posterior (mean, log-variance) from the standard
    normal. *)
Theorem minibatch_loss_is_denoising_elbo (cfg : config) (beta : R)
    (b : batch_draw) (Hstd : 0 < input_noise_std cfg)
    (Hnoise : length (noise_draw b) = length (x_batch b))
    (Heps : length (eps_draw b) = length (x_batch b)) :
  (forall p,
     batch_loss cfg beta b p
     = denoising_elbo cfg p beta (x_batch b) (noise_draw b) (eps_draw b)) /\
  (forall (optimizer_state : Type)
          (optimizer_step : (params -> R) -> params * optimizer_state
                            -> params * optimizer_state)
          (st : params * optimizer_state) (t : totals),
     let after := train_batch optimizer_step cfg beta (st, t) b in
     fst after = optimizer_step (batch_loss cfg beta b) st /\
     total_loss (snd after)
     = total_loss t
       + denoising_elbo cfg (fst st) beta
                        (x_batch b) (noise_draw b) (eps_draw b)).
Proof.
  split.
  - intros p. apply batch_loss_denoising_elbo; assumption.
  - intros S step st t after. subst after. unfold train_batch.
    rewrite <- (batch_loss_denoising_elbo cfg beta b (fst st) Hstd Hnoise Heps).
    unfold batch_loss.
    destruct (batch_losses cfg beta b (fst st)) as [[r k] l].
    cbn [fst snd total_loss]. split; reflexivity.
Qed.

Lemma minibatch_loss_is_denoising_elbo_witness :
  0 < input_noise_std default_config /\
  batch_loss default_config 1 tiny_batch tiny_params
  = denoising_elbo default_config tiny_params 1
                   [[1]; [2]] [[1]; [-1]] [[0]; [1]].
Proof.
  assert (H : 0 < input_noise_std default_config) by (simpl; lra).
  split; [exact H|].
  exact (proj1 (minibatch_loss_is_denoising_elbo default_config 1 tiny_batch
                  H eq_refl eq_refl)
               tiny_params).
Defined.

(** A minibatch of one sample, by hand: the noised input 1.01 is encoded to
    mu = 1.01, logvar = 0 and reconstructed as 1.01; against the clean
    input 1 the squared error is 0.0001, and the KL term is 0.51005. *)
Example tiny_minibatch_loss :
  batch_loss default_config 1
             {| x_batch := [[1]]; noise_draw := [[1]]; eps_draw := [[0]] |}
             tiny_params
  = 0.0001 + 1 * 0.51005.
Proof.
  unfold batch_loss, batch_losses, add_input_noise.
  destruct (Rlt_dec 0 (input_noise_std default_config)) as [_|N];
    [|exfalso; apply N; simpl; lra].
  cbn -[Rmax Rmin exp INR].
  unfold mean, mse_row, mean, vsum, vsub, relu, clamp. cbn -[Rmax Rmin exp].
  replace (1 * (1 + 1 * (1 / 100)) + 0 + 0) with 1.01 by lra.
  rewrite (Rmax_right 0 1.01) by lra.
  replace (1 * 1.01 + 0 + 0) with 1.01 by lra.
  replace (0 * 1.01 + 0 + 0) with 0 by lra.
  rewrite (Rmax_left 0 (-20)) by lra.
  rewrite (Rmin_left 0 20) by lra.
  replace (0.5 * 0) with 0 by lra.
  rewrite exp_0.
  replace (1 * (1.01 + 0 * 1) + 0 + 0) with 1.01 by lra.
  rewrite (Rmax_right 0 1.01) by lra.
  lra.
Qed.

(** ** Sampling *)

Lemma clamp_by_cases (x : R) : clamp (-20) 20 x = clamp_20 x.
Proof.
  unfold clamp, clamp_20.
  destruct (Rlt_dec x (-20)) as [H|H].
  - rewrite Rmax_right by lra. rewrite Rmin_left by lra. reflexivity.
  - rewrite Rmax_left by lra.
    destruct (Rlt_dec 20 x) as [H'|H'].
    + rewrite Rmin_right by lra. reflexivity.
    + rewrite Rmin_left by lra. reflexivity.
Qed.

Lemma clamp_20_bounds (x : R) : -20 <= clamp_20 x <= 20.
Proof.
  unfold clamp_20.
  destruct (Rlt_dec x (-20)); [lra|]. destruct (Rlt_dec 20 x); lra.
Qed.

Lemma reparameterize1_nth (mu logvar eps : vec) (i : nat) (m l e : R) :
  nth_error mu i = Some m -> nth_error logvar i = Some l ->
  nth_error eps i = Some e ->
  nth_error (reparameterize1 mu logvar eps) i
  = Some (m + e * exp (0.5 * clamp_20 l)).
Proof.
  intros Hm Hl He. unfold reparameterize1, vadd.
  rewrite map_map.
  apply zip_with_nth_error; [exact Hm|].
  rewrite <- clamp_by_cases.
  apply zip_with_nth_error; [exact He|].
  rewrite nth_error_map, Hl. reflexivity.
Qed.

Lemma zip_with3_nth_error {A B C D : Type} (f : A -> B -> C -> D)
    (xs : list A) :
  forall ys zs i a b c,
    nth_error xs i = Some a -> nth_error ys i = Some b ->
    nth_error zs i = Some c ->
    nth_error (zip_with3 f xs ys zs) i = Some (f a b c).
Proof.
  induction xs as [|x xs IH]; intros [|y ys] [|z zs] [|i] a b c Ha Hb Hc;
    simpl in *; try discriminate.
  - congruence.
  - eapply IH; eassumption.
Qed.

(** C6. Every entry of the sampled latent tensor is
    mean + noise * exp(0.5 * clamp(log_variance, -20, 20)), where noise is
    the entry of the standard-normal draw at the same position; the
    standard deviation so used lies between exp(-10) and exp(10). *)
Theorem reparameterize_formula (mu logvar eps : matrix) (r i : nat)
    (mu_r logvar_r eps_r : vec) (m l e : R)
    (Hmu : nth_error mu r = Some mu_r) (Hm : nth_error mu_r i = Some m)
    (Hlogvar : nth_error logvar r = Some logvar_r)
    (Hl : nth_error logvar_r i = Some l)
    (Heps : nth_error eps r = Some eps_r) (He : nth_error eps_r i = Some e) :
  (exists z_r,
     nth_error (reparameterize mu logvar eps) r = Some z_r /\
     nth_error z_r i = Some (m + e * exp (0.5 * clamp_20 l))) /\
  clamp (-20) 20 l = clamp_20 l /\
  exp (-10) <= exp (0.5 * clamp_20 l) <= exp 10.
Proof.
  split; [|split].
  - exists (reparameterize1 mu_r logvar_r eps_r). split.
    + unfold reparameterize.
      apply zip_with3_nth_error; assumption.
    + apply reparameterize1_nth; assumption.
  - apply clamp_by_cases.
  - pose proof (clamp_20_bounds l) as [Hlo Hhi].
    split.
    + destruct (Req_dec (-10) (0.5 * clamp_20 l)) as [E|E].
      * rewrite <- E. lra.
      * left. apply exp_increasing. lra.
    + destruct (Req_dec (0.5 * clamp_20 l) 10) as [E|E].
      * rewrite E. lra.
      * left. apply exp_increasing. lra.
Qed.

Lemma reparameterize_formula_witness :
  exists z_r,
    nth_error (reparameterize [[1]] [[30]] [[2]]) 0 = Some z_r /\
    nth_error z_r 0 = Some (1 + 2 * exp (0.5 * clamp_20 30)).
Proof.
  exact (proj1 (reparameterize_formula [[1]] [[30]] [[2]] 0 0 [1] [30] [2]
                  1 30 2 eq_refl eq_refl eq_refl eq_refl eq_refl eq_refl)).
Defined.

(** ** The extraction, read by read *)

Lemma zip_with_zip_with_same {A B C D : Type} (f : C -> A -> D)
    (g : A -> B -> C) (xs : list A) :
  forall ys, zip_with f (zip_with g xs ys) xs
             = zip_with (fun x y => f (g x y) x) xs ys.
Proof.
  induction xs as [|x xs IH]; intros [|y ys]; simpl; try reflexivity.
  now rewrite IH.
Qed.

Lemma extract_per_read (p : params) (X eps : matrix) :
  extract p X eps
  = (map (fun x => fst (encode1 p x)) X,
     zip_with (sampled_recon_error p) X eps).
Proof.
  unfold extract, encode, reparameterize, decode.
  rewrite zip_with3_map_same, map_zip_with, zip_with_zip_with_same.
  apply f_equal2; [reflexivity|].
  apply zip_with_ext. intros x e.
  unfold sampled_recon_error. destruct (encode1 p x) as [mu logvar].
  reflexivity.
Qed.

(** ** What a completed run went through *)

Lemma map_fst_combine {A B : Type} (xs : list A) :
  forall ys : list B, length xs = length ys -> map fst (combine xs ys) = xs.
Proof.
  induction xs as [|x xs IH]; intros [|y ys] H; simpl in *;
    try reflexivity; try discriminate.
  f_equal. apply IH. lia.
Qed.

Lemma map_snd_combine {A B : Type} (xs : list A) :
  forall ys : list B, length xs = length ys -> map snd (combine xs ys) = ys.
Proof.
  induction xs as [|x xs IH]; intros [|y ys] H; simpl in *;
    try reflexivity; try discriminate.
  f_equal. apply IH. lia.
Qed.

Lemma combine_length_eq {A B : Type} (xs : list A) (ys : list B) :
  length xs = length ys -> length (combine xs ys) = length xs.
Proof.
  intros H. rewrite length_combine, <- H. apply Nat.min_id.
Qed.

(** The steps a run of [main] has taken when it returns its tables. *)
Lemma main_inv (L : libs) (cfg : config) (rnd : randomness)
    (read_ids : list string) (embeddings : matrix) (out : outputs) :
  main L cfg rnd read_ids embeddings = Some out ->
  exists trained labels distance,
    completed L cfg rnd read_ids embeddings out trained labels distance.
Proof.
  unfold main, completed, aligned_ids, aligned_X, projected.
  destruct (align read_ids embeddings) as [[ids X] log0] eqn:Ealign.
  destruct (Nat.eqb_spec (size X) 0) as [E0|E0]; [discriminate|].
  destruct (train (optimizer_step L) cfg (loader rnd)
              (init_params rnd, optimizer_init L (init_params rnd)))
    as [trained|] eqn:Etrain; [|discriminate].
  cbn [bind fst snd].
  destruct (extract (fst (fst trained)) X (eps_final rnd))
    as [latent recon_errors] eqn:Eextract.
  destruct (hdbscan_fit_predict L (hdbscan_min_cluster_size cfg)
              (hdbscan_min_samples cfg) _) as [labels|] eqn:Ehdb;
    [|discriminate].
  cbn [bind].
  destruct (cluster_distance _ labels) as [cd|] eqn:Ecd; [|discriminate].
  cbn [bind]. unfold clusters_frame, novelty_frame.
  destruct (Nat.eqb_spec (length ids) (length labels)) as [El|El];
    [|discriminate].
  cbn [bind].
  destruct (Nat.eqb_spec (length ids) (length recon_errors)) as [Er|Er];
    [|discriminate].
  destruct (Nat.eqb_spec (length ids) (length cd)) as [Ed|Ed];
    [|discriminate].
  cbn [andb]. intros H. injection H as <-.
  exists trained, labels, cd.
  rewrite Eextract. cbn [fst snd clusters_df novelty_df printed].
  repeat split; assumption || reflexivity.
Qed.

(** ** Truncation and the shape of the tables *)

Lemma align_mismatch (read_ids : list string) (embeddings : matrix) :
  length read_ids <> length embeddings ->
  align read_ids embeddings
  = (firstn (Nat.min (length read_ids) (length embeddings)) read_ids,
     firstn (Nat.min (length read_ids) (length embeddings)) embeddings,
     [truncation_warning]).
Proof.
  intros H. unfold align.
  destruct (Nat.eqb_spec (length read_ids) (length embeddings)) as [E|E];
    [contradiction | reflexivity].
Qed.

Lemma align_match (read_ids : list string) (embeddings : matrix) :
  length read_ids = length embeddings ->
  align read_ids embeddings = (read_ids, embeddings, []).
Proof.
  intros H. unfold align.
  destruct (Nat.eqb_spec (length read_ids) (length embeddings)) as [E|E];
    [reflexivity | contradiction].
Qed.

(** After the length check both arrays have the length of the shorter. *)
Lemma align_lengths (read_ids : list string) (embeddings : matrix) :
  length (aligned_ids read_ids embeddings)
  = Nat.min (length read_ids) (length embeddings) /\
  length (aligned_X read_ids embeddings)
  = Nat.min (length read_ids) (length embeddings).
Proof.
  unfold aligned_ids, aligned_X.
  destruct (Nat.eq_dec (length read_ids) (length embeddings)) as [E|E].
  - rewrite align_match by exact E. cbn [fst snd]. lia.
  - rewrite align_mismatch by exact E. cbn [fst snd].
    rewrite !length_firstn. lia.
Qed.

Lemma tables_of_completed_run (L : libs) (cfg : config) (rnd : randomness)
    (read_ids : list string) (embeddings : matrix) (out : outputs) :
  main L cfg rnd read_ids embeddings = Some out ->
  length (clusters_df out) = length (aligned_ids read_ids embeddings) /\
  length (novelty_df out) = length (aligned_ids read_ids embeddings) /\
  map fst (clusters_df out) = aligned_ids read_ids embeddings /\
  map (fun row => fst (fst row)) (novelty_df out)
  = aligned_ids read_ids embeddings.
Proof.
  intros H. apply main_inv in H.
  destruct H as (trained & labels & cd & H).
  destruct H as (_ & _ & _ & _ & Hl & Hr & Hd & Hc & Hn & _).
  rewrite Hc, Hn.
  assert (Hcr : length (combine (aligned_ids read_ids embeddings)
                  (snd (extract (fst (fst trained))
                          (aligned_X read_ids embeddings) (eps_final rnd))))
                = length (aligned_ids read_ids embeddings))
    by (apply combine_length_eq; exact Hr).
  repeat split.
  - apply combine_length_eq; exact Hl.
  - rewrite combine_length_eq; [exact Hcr | rewrite Hcr; exact Hd].
  - apply map_fst_combine; exact Hl.
  - rewrite <- (map_map fst fst).
    rewrite map_fst_combine by (rewrite Hcr; exact Hd).
    apply map_fst_combine; exact Hr.
Qed.

Lemma reduce_rows (L : libs) (cfg : config) (m : matrix) :
  well_shaped L ->
  length (latent_proj (reduce (has_umap L) (umap_fit_transform L)
                              (pca_fit_transform L) cfg m))
  = length m.
Proof.
  intros (_ & Hu & Hp & _). unfold reduce, pca_or_scaled.
  destruct (has_umap L).
  - destruct (umap_fit_transform L _ m) as [proj|] eqn:Eu; cbn.
    + eapply Hu. exact Eu.
    + destruct (pca_fit_transform L _ m) as [[proj e]|] eqn:Ep;
        [destruct (isnan e)|]; cbn; try reflexivity.
      eapply Hp. exact Ep.
  - cbn. destruct (pca_fit_transform L _ m) as [[proj e]|] eqn:Ep;
      [destruct (isnan e)|]; cbn; try reflexivity.
    eapply Hp. exact Ep.
Qed.

Lemma cluster_distance_rows (latent_proj : matrix) (cluster_labels : list Z) :
  length cluster_labels = length latent_proj ->
  exists cd, cluster_distance latent_proj cluster_labels = Some cd /\
             length cd = length latent_proj.
Proof.
  intros Hlen. unfold cluster_distance.
  destruct (0 <? length (unique_clusters cluster_labels))%nat.
  - rewrite Hlen, Nat.eqb_refl. eexists. split; [reflexivity|].
    unfold pairwise_distances. rewrite !length_map. reflexivity.
  - eexists. split; [reflexivity | apply repeat_length].
Qed.

(** With well-shaped libraries, a clusterer call that does not raise, a
    non-empty aligned input and a final draw of one row per read, [main]
    builds its two tables. *)
Lemma main_completes (L : libs) (cfg : config) (rnd : randomness)
    (read_ids : list string) (embeddings : matrix) :
  well_shaped L ->
  clusterer_accepts L cfg rnd read_ids embeddings ->
  size (aligned_X read_ids embeddings) <> 0%nat ->
  length (eps_final rnd) = length (aligned_X read_ids embeddings) ->
  exists out, main L cfg rnd read_ids embeddings = Some out.
Proof.
  intros Hws Hcall Hsize Heps.
  pose proof (align_lengths read_ids embeddings) as [Hids HX].
  unfold clusterer_accepts, projected in Hcall.
  unfold main, aligned_ids, aligned_X in *.
  destruct (align read_ids embeddings) as [[ids X] log0].
  cbn [fst snd] in *.
  destruct (Nat.eqb_spec (size X) 0) as [E|_]; [contradiction|].
  destruct (train_total (optimizer_step L) cfg (loader rnd)
              (init_params rnd, optimizer_init L (init_params rnd)))
    as [trained Htrain].
  specialize (Hcall trained Htrain). rewrite Htrain.
  rewrite extract_per_read in Hcall. cbn [fst] in Hcall.
  cbn [bind]. rewrite extract_per_read.
  set (m := standard_scaler L _).
  assert (Hm : length m = length X).
  { subst m. destruct Hws as (Hs & _). rewrite Hs. apply length_map. }
  pose proof (reduce_rows L cfg m Hws) as Hproj.
  set (proj := reduce _ _ _ cfg m) in *.
  assert (HX0 : X <> []) by (intros ->; apply Hsize; reflexivity).
  assert (Hp0 : latent_proj proj <> []).
  { intros E. rewrite E in Hproj. simpl in Hproj.
    destruct X; [congruence | simpl in *; lia]. }
  destruct Hws as (_ & _ & _ & Hh).
  destruct (hdbscan_fit_predict L (hdbscan_min_cluster_size cfg)
              (hdbscan_min_samples cfg) (latent_proj proj))
    as [labels|] eqn:Elab; [|contradiction].
  pose proof (Hh _ _ _ _ Elab) as Hlab.
  cbn [bind].
  destruct (cluster_distance_rows (latent_proj proj) labels Hlab)
    as (cd & -> & Hcd).
  cbn [bind]. unfold clusters_frame, novelty_frame.
  clearbody proj. clearbody m. unfold matrix, vec in *.
  replace (length ids =? length labels)%nat with true
    by (symmetry; apply Nat.eqb_eq; lia).
  cbn [bind]. rewrite zip_with_length, Heps, Nat.min_id.
  replace (length ids =? length X)%nat
    with true by (symmetry; apply Nat.eqb_eq; lia).
  replace (length ids =? length cd)%nat with true
    by (symmetry; apply Nat.eqb_eq; lia).
  cbn. eexists. reflexivity.
Qed.

(** C3. When the identifiers and the embedding rows differ in number, both
    are cut to the first min(len(identifiers), len(embeddings)) entries (a
    prefix of each, nothing added) and the warning is printed; the cluster
    table and the novelty table of the run then have exactly that many rows,
    and the identifier column of each is the truncated identifier list in
    its input order. *)
Theorem truncation_to_shorter (L : libs) (cfg : config) (rnd : randomness)
    (read_ids : list string) (embeddings : matrix)
    (Hne : length read_ids <> length embeddings) :
  let minlen := Nat.min (length read_ids) (length embeddings) in
  align read_ids embeddings
  = (firstn minlen read_ids, firstn minlen embeddings, [truncation_warning]) /\
  length (firstn minlen read_ids) = minlen /\
  length (firstn minlen embeddings) = minlen /\
  (forall out,
     main L cfg rnd read_ids embeddings = Some out ->
     length (clusters_df out) = minlen /\
     length (novelty_df out) = minlen /\
     map fst (clusters_df out) = firstn minlen read_ids /\
     map (fun row => fst (fst row)) (novelty_df out) = firstn minlen read_ids /\
     In truncation_warning (printed out)).
Proof.
  intros minlen. subst minlen.
  pose proof (align_mismatch read_ids embeddings Hne) as Ha.
  split; [exact Ha|].
  split; [rewrite length_firstn; lia|].
  split; [rewrite length_firstn; lia|].
  intros out Hmain.
  pose proof (tables_of_completed_run _ _ _ _ _ _ Hmain) as (Hc & Hn & Hci & Hni).
  pose proof (align_lengths read_ids embeddings) as [Hlen _].
  assert (Hids : aligned_ids read_ids embeddings
                 = firstn (Nat.min (length read_ids) (length embeddings)) read_ids)
    by (unfold aligned_ids; rewrite Ha; reflexivity).
  rewrite Hc, Hn, Hci, Hni, Hlen.
  repeat split; try exact Hids.
  apply main_inv in Hmain.
  destruct Hmain as (trained & labels & cd & H).
  destruct H as (_ & _ & _ & _ & _ & _ & _ & _ & _ & Hp).
  rewrite Hp, Ha. cbn [snd]. apply in_or_app. left. left. reflexivity.
Qed.

(** Three identifiers against two embedding rows. *)
Lemma truncation_to_shorter_witness :
  exists out,
    main plain_libs default_config no_batches three_ids two_rows = Some out /\
    length (clusters_df out) = 2%nat /\
    length (novelty_df out) = 2%nat /\
    map fst (clusters_df out) = ["r0"; "r1"]%string /\
    map (fun row => fst (fst row)) (novelty_df out) = ["r0"; "r1"]%string /\
    In truncation_warning (printed out).
Proof.
  assert (Hne : length three_ids <> length two_rows) by (simpl; lia).
  eexists. split; [reflexivity|].
  apply (proj2 (proj2 (proj2
           (truncation_to_shorter plain_libs default_config no_batches
              three_ids two_rows Hne)))).
  reflexivity.
Defined.

(** ** Latent extraction and reconstruction errors *)

(** The reconstruction error the script computes for one read is the
    reference mean-squared error between the clean input and the decode of
    the sampled latent point. *)
Lemma sampled_recon_error_sampled_error (p : params) (x eps : vec) :
  sampled_recon_error p x eps = sampled_error p x eps.
Proof.
  unfold sampled_recon_error, sampled_error.
  destruct (encode1 p x) as [mu logvar].
  apply mse_row_mean_squared_error.
Qed.

(** C7. In a completed run the recon_error column of the novelty table
    has one entry per read and holds, for the read at every position, the
    mean of the squared differences between the read's clean input vector
    and the decode of one latent point sampled (with that position's
    draw) from the read's encoded distribution; the labels of the cluster
    table are those of the clusterer on the projection of the standardized
    encoder means, and they do not change when the sampling noise is drawn
    anew. *)
Theorem recon_error_sampled_latent_mean (L : libs) (cfg : config)
    (rnd : randomness) (read_ids : list string) (embeddings : matrix)
    (out : outputs)
    (Hmain : main L cfg rnd read_ids embeddings = Some out) :
  exists trained,
    let vae := fst (fst trained) in
    let X := aligned_X read_ids embeddings in
    let recon_error := map (fun row => snd (fst row)) (novelty_df out) in
    train (optimizer_step L) cfg (loader rnd)
          (init_params rnd, optimizer_init L (init_params rnd)) = Some trained /\
    length recon_error = length X /\
    (forall i x, nth_error X i = Some x ->
       exists e, nth_error (eps_final rnd) i = Some e /\
                 nth_error recon_error i = Some (sampled_error vae x e)) /\
    hdbscan_fit_predict L (hdbscan_min_cluster_size cfg) (hdbscan_min_samples cfg)
      (latent_proj
         (reduce (has_umap L) (umap_fit_transform L) (pca_fit_transform L) cfg
                 (standard_scaler L (map (fun x => fst (encode1 vae x)) X))))
    = Some (map snd (clusters_df out)) /\
    (forall eps' out',
       main L cfg (with_eps_final rnd eps') read_ids embeddings = Some out' ->
       clusters_df out' = clusters_df out).
Proof.
  apply main_inv in Hmain.
  destruct Hmain as (trained & labels & cd & H).
  destruct H as (_ & Htrain & Hhdb & _ & Hl & Hr & Hd & Hc & Hn & _).
  exists trained. cbn zeta.
  unfold projected in Hhdb. rewrite extract_per_read in Hhdb, Hr, Hn.
  cbn [fst snd] in Hhdb, Hr, Hn.
  assert (Hcol : map (fun row => snd (fst row)) (novelty_df out)
                 = zip_with (sampled_recon_error (fst (fst trained)))
                            (aligned_X read_ids embeddings) (eps_final rnd)).
  { rewrite Hn. rewrite <- (map_map fst snd).
    rewrite map_fst_combine
      by (rewrite combine_length_eq by exact Hr; exact Hd).
    apply map_snd_combine. exact Hr. }
  assert (Hrows : length (zip_with (sampled_recon_error (fst (fst trained)))
                            (aligned_X read_ids embeddings) (eps_final rnd))
                  = length (aligned_X read_ids embeddings)).
  { rewrite <- Hr.
    destruct (align_lengths read_ids embeddings) as [Hi HX].
    rewrite Hi, HX. reflexivity. }
  split; [exact Htrain|]. split; [|split; [|split]].
  - rewrite Hcol. exact Hrows.
  - intros i x Hx. rewrite Hcol.
    assert (Hi : (i < length (zip_with (sampled_recon_error (fst (fst trained)))
                            (aligned_X read_ids embeddings) (eps_final rnd)))%nat).
    { rewrite Hrows. apply nth_error_Some. rewrite Hx. discriminate. }
    rewrite zip_with_length in Hi.
    destruct (nth_error (eps_final rnd) i) as [e|] eqn:He.
    + exists e. split; [reflexivity|].
      rewrite (zip_with_nth_error _ _ _ _ _ _ Hx He).
      rewrite sampled_recon_error_sampled_error. reflexivity.
    + apply nth_error_None in He. unfold matrix, vec in *. lia.
  - rewrite Hc, map_snd_combine by exact Hl. exact Hhdb.
  - intros eps' out' Hmain'. apply main_inv in Hmain'.
    destruct Hmain' as (trained' & labels' & cd' & H').
    destruct H' as (_ & Htrain' & Hhdb' & _ & _ & _ & _ & Hc' & _).
    cbn [with_eps_final init_params loader eps_final] in Htrain', Hhdb'.
    rewrite Htrain in Htrain'. injection Htrain' as <-.
    unfold projected in Hhdb'. rewrite extract_per_read in Hhdb'.
    cbn [fst] in Hhdb'. rewrite Hhdb in Hhdb'. injection Hhdb' as <-.
    rewrite Hc, Hc'. reflexivity.
Qed.

(** Runs [main] on concrete data, leaving the real-number terms alone. *)
Ltac run_main :=
  lazy -[Rplus Rmult Rminus Rdiv Rinv Ropp exp ln sqrt Rmax Rmin INR IZR pow];
  reflexivity.

(** The run of the stand-in libraries on three identifiers and two rows. *)
Lemma plain_run_completes :
  { out | main plain_libs default_config no_batches three_ids two_rows
          = Some out }.
Proof. eexists. run_main. Defined.

(** The same run with final sampling draws 1 and -1. *)
Lemma drawn_run_completes :
  { out | main plain_libs default_config drawn three_ids two_rows
          = Some out }.
Proof. eexists. run_main. Defined.

Lemma recon_error_sampled_latent_mean_witness :
  exists (out : outputs)
         (trained : params * optimizer_state plain_libs * list epoch_summary),
    main plain_libs default_config drawn three_ids two_rows = Some out /\
    length (map (fun row => snd (fst row)) (novelty_df out)) = 2%nat /\
    exists e, nth_error (eps_final drawn) 1 = Some e /\
              nth_error (map (fun row => snd (fst row)) (novelty_df out)) 1
              = Some (sampled_error (fst (fst trained)) [3] e).
Proof.
  destruct drawn_run_completes as [out Hmain].
  destruct (recon_error_sampled_latent_mean _ _ _ _ _ _ Hmain)
    as (trained & _ & Hlen & Herr & _).
  exists out, trained. split; [exact Hmain|]. split; [exact Hlen|].
  exact (Herr 1%nat [3] eq_refl).
Defined.

(** With the stand-in model the draw changes the error: the read 1
    sampled with draw 1 decodes to 2, an error of 1, where the encoder
    mean alone would decode to 1, an error of 0. *)
Example sampled_error_depends_on_draw :
  sampled_error tiny_params [1] [1] = 1 /\
  sampled_error tiny_params [1] [0] = 0.
Proof.
  lazy -[Rplus Rmult Rminus Rdiv Rinv Ropp exp ln sqrt Rmax Rmin INR IZR pow].
  replace (Rmax 0 (1 * 1 + 0 + 0)) with 1 by (rewrite Rmax_right; lra).
  replace (Rmin (Rmax (0 * 1 + 0 + 0) (-20)) 20) with 0
    by (rewrite Rmax_left by lra; rewrite Rmin_left; lra).
  replace (5 * / 10 * 0) with 0 by lra. rewrite exp_0.
  replace (Rmax 0 (1 * (1 * 1 + 0 + 0 + 1 * 1) + 0 + 0)) with 2
    by (rewrite Rmax_right; lra).
  replace (Rmax 0 (1 * (1 * 1 + 0 + 0 + 0 * 1) + 0 + 0)) with 1
    by (rewrite Rmax_right; lra).
  cbn [INR].
  split; lra.
Qed.

(** ** Rows with a given label *)

Lemma count_rows_with_label {A : Type} (c : Z) (ids : list A) :
  forall labels,
    length ids = length labels ->
    length (filter (fun row => (snd row =? c)%Z) (combine ids labels))
    = count_occ Z.eq_dec labels c.
Proof.
  induction ids as [|i ids IH]; intros [|l labels] H; simpl in *;
    try reflexivity; try discriminate.
  destruct (Z.eqb_spec l c) as [E|E]; destruct (Z.eq_dec l c) as [E'|E'];
    try contradiction; simpl; rewrite IH by lia; reflexivity.
Qed.

(** ** The dimensionality-reduction chain *)

Section ChainProperties.
Context {A : Type}.
Variable has_umap : bool.
Variable umap_fit_transform : nat -> list (list A) -> option (list (list A)).
Variable pca_fit_transform :
  nat -> list (list A) -> option (list (list A) * npfloat).
Variable cfg : config.
Variable latent_scaled : list (list A).

Let n_umap := Nat.min (umap_components cfg) (ncols latent_scaled).
Let n_pca := Nat.min (pca_components cfg) (ncols latent_scaled).
Let r := reduce has_umap umap_fit_transform pca_fit_transform cfg latent_scaled.

Lemma reduce_umap_result (proj : list (list A)) :
  has_umap = true -> umap_fit_transform n_umap latent_scaled = Some proj ->
  r = {| latent_proj := proj; used := tier_umap;
         events := [msg_umap; msg_umap_ok] |}.
Proof.
  intros Hh Hu. subst r n_umap. unfold reduce, n_target.
  rewrite Hh, Hu. reflexivity.
Qed.

Lemma reduce_without_umap :
  has_umap = false \/ umap_fit_transform n_umap latent_scaled = None ->
  exists log,
    r = pca_or_scaled pca_fit_transform cfg latent_scaled log.
Proof.
  intros H. subst r n_umap. unfold reduce, n_target.
  destruct has_umap.
  - destruct H as [H|H]; [discriminate|]. rewrite H.
    eexists. reflexivity.
  - eexists. reflexivity.
Qed.

(** C5, as the code has it.  The UMAP tier is tried first when the library
    is there, and its result is used as returned; when the library is
    missing or the call raises, the PCA tier runs with target width
    min(pca_components, d), which is smaller than the UMAP width
    min(umap_components, d) when pca_components is below both
    umap_components and d: with the script's constants and its 16 latent
    columns the widths are 5 against 10.  When the PCA call raises or its
    explained-variance sum is NaN, the standardized latent matrix is used
    unchanged.  The stage always produces a clustering input. *)
Theorem reduce_fallback_chain :
  (forall proj,
     has_umap = true -> umap_fit_transform n_umap latent_scaled = Some proj ->
     latent_proj r = proj /\ used r = tier_umap) /\
  (has_umap = false \/ umap_fit_transform n_umap latent_scaled = None ->
   (forall proj explained,
      pca_fit_transform n_pca latent_scaled = Some (proj, explained) ->
      isnan explained = false ->
      latent_proj r = proj /\ used r = tier_pca) /\
   (pca_fit_transform n_pca latent_scaled = None \/
    (exists proj, pca_fit_transform n_pca latent_scaled = Some (proj, nan)) ->
    latent_proj r = latent_scaled /\ used r = tier_scaled)) /\
  ((pca_components cfg <= umap_components cfg)%nat -> (n_pca <= n_umap)%nat) /\
  ((pca_components cfg < umap_components cfg)%nat ->
   (pca_components cfg < ncols latent_scaled)%nat -> (n_pca < n_umap)%nat) /\
  (pca_components cfg = 5%nat -> umap_components cfg = 10%nat ->
   ncols latent_scaled = 16%nat -> n_pca = 5%nat /\ n_umap = 10%nat) /\
  (used r = tier_scaled -> latent_proj r = latent_scaled).
Proof.
  split; [|split; [|split; [|split; [|split]]]].
  - intros proj Hh Hu. rewrite (reduce_umap_result proj Hh Hu). split; reflexivity.
  - intros H. destruct (reduce_without_umap H) as [log ->].
    unfold pca_or_scaled. fold n_pca. split.
    + intros proj e Hp He. rewrite Hp, He. split; reflexivity.
    + intros [Hp|[proj Hp]]; rewrite Hp; split; reflexivity.
  - intros Hle. subst n_pca n_umap. lia.
  - intros Hlt Hd. subst n_pca n_umap. lia.
  - intros Hp Hu Hd. subst n_pca n_umap. lia.
  - subst r n_umap. unfold reduce, n_target, pca_or_scaled.
    destruct has_umap.
    + destruct (umap_fit_transform _ latent_scaled) as [proj|]; cbn.
      * discriminate.
      * destruct (pca_fit_transform _ latent_scaled) as [[proj e]|];
          [destruct (isnan e)|]; cbn; intros H; try discriminate; reflexivity.
    + cbn. destruct (pca_fit_transform _ latent_scaled) as [[proj e]|];
        [destruct (isnan e)|]; cbn; intros H; try discriminate; reflexivity.
Qed.
End ChainProperties.

(** The script's constants on 16 latent columns, without UMAP: the PCA
    tier provides the clustering input, of width 5 where the UMAP tier
    would have had width 10. *)
Lemma reduce_fallback_chain_witness :
  let r := reduce false (fun _ _ => None) first_columns_pca default_config
                  sixteen_columns in
  (latent_proj r = [repeat 1 5] /\ used r = tier_pca) /\
  (Nat.min (pca_components default_config) (ncols sixteen_columns)
   < Nat.min (umap_components default_config) (ncols sixteen_columns))%nat /\
  (Nat.min (pca_components default_config) (ncols sixteen_columns) = 5%nat /\
   Nat.min (umap_components default_config) (ncols sixteen_columns) = 10%nat).
Proof.
  destruct (reduce_fallback_chain false (fun _ _ => None) first_columns_pca
              default_config sixteen_columns)
    as (_ & Hpca & _ & Hlt & Hwidths & _).
  split; [|split].
  - exact (proj1 (Hpca (or_introl eq_refl)) [repeat 1 5] (finite 1)
             eq_refl eq_refl).
  - apply Hlt; cbn; lia.
  - apply Hwidths; reflexivity.
Defined.

(** C5, as the claim has it, fails: a UMAP call that returns an array of
    NaN without raising does not lead to the PCA tier, although PCA would
    have succeeded; the NaN array becomes the clustering input. *)
Lemma umap_nan_result_is_kept :
  let r := reduce true nan_umap unit_pca default_config [[finite 0]] in
  nan_umap (Nat.min 10 1) [[finite 0]] = Some [[nan]] /\
  has_nan [[nan]] = true /\
  unit_pca (Nat.min 5 1) [[finite 0]] = Some ([[finite 1]], finite 1) /\
  latent_proj r = [[nan]] /\
  used r = tier_umap /\
  latent_proj r <> [[finite 1]].
Proof.
  cbn. repeat split; discriminate.
Qed.

(** ** Distance to the nearest centroid *)

Lemma fold_left_Rmin_le_init (ds : vec) :
  forall d, fold_left Rmin ds d <= d.
Proof.
  induction ds as [|a ds IH]; intros d; simpl.
  - lra.
  - eapply Rle_trans; [apply IH | apply Rmin_l].
Qed.

Lemma fold_left_Rmin_lower (ds : vec) :
  forall d x, In x (d :: ds) -> fold_left Rmin ds d <= x.
Proof.
  induction ds as [|a ds IH]; intros d x Hin.
  - destruct Hin as [<-|[]]. simpl. lra.
  - cbn [fold_left]. destruct Hin as [<-|[<-|Hin]].
    + eapply Rle_trans; [apply fold_left_Rmin_le_init | apply Rmin_l].
    + eapply Rle_trans; [apply fold_left_Rmin_le_init | apply Rmin_r].
    + apply IH. right. exact Hin.
Qed.

Lemma fold_left_Rmin_attained (ds : vec) :
  forall d, In (fold_left Rmin ds d) (d :: ds).
Proof.
  induction ds as [|a ds IH]; intros d.
  - left. reflexivity.
  - cbn [fold_left]. destruct (IH (Rmin d a)) as [H|H].
    + rewrite <- H. unfold Rmin. destruct (Rle_dec d a).
      * left. reflexivity.
      * right. left. reflexivity.
    + right. right. exact H.
Qed.

Lemma row_min_is_minimum (row : vec) :
  row <> [] ->
  In (row_min row) row /\ forall x, In x row -> row_min row <= x.
Proof.
  destruct row as [|d ds]; [congruence|]. intros _. split.
  - apply fold_left_Rmin_attained.
  - apply fold_left_Rmin_lower.
Qed.

Lemma unique_clusters_spec (cluster_labels : list Z) (c : Z) :
  In c (unique_clusters cluster_labels)
  <-> In c cluster_labels /\ c <> (-1)%Z.
Proof.
  unfold unique_clusters. rewrite filter_In, nodup_In.
  destruct (Z.eqb_spec c (-1)) as [E|E]; simpl; intuition congruence.
Qed.

Lemma unique_clusters_empty (cluster_labels : list Z) :
  unique_clusters cluster_labels = []
  <-> forall c, In c cluster_labels -> c = (-1)%Z.
Proof.
  split.
  - intros H c Hin. destruct (Z.eq_dec c (-1)) as [E|E]; [exact E|].
    assert (Hc : In c (unique_clusters cluster_labels))
      by (apply unique_clusters_spec; split; assumption).
    rewrite H in Hc. destruct Hc.
  - intros H. destruct (unique_clusters cluster_labels) as [|c cs] eqn:E;
      [reflexivity|].
    assert (Hc : In c (unique_clusters cluster_labels))
      by (rewrite E; left; reflexivity).
    apply unique_clusters_spec in Hc. destruct Hc as [Hin Hne].
    apply H in Hin. contradiction.
Qed.

Lemma cluster_distance_no_clusters (latent_proj : matrix)
    (cluster_labels : list Z) :
  unique_clusters cluster_labels = [] ->
  cluster_distance latent_proj cluster_labels
  = Some (repeat pos_inf (length latent_proj)).
Proof.
  intros H. unfold cluster_distance. rewrite H. reflexivity.
Qed.

Lemma cluster_distance_with_clusters (latent_proj : matrix)
    (cluster_labels : list Z) :
  unique_clusters cluster_labels <> [] ->
  length cluster_labels = length latent_proj ->
  cluster_distance latent_proj cluster_labels
  = Some (map (fun x =>
                 finite (row_min (map (fun c =>
                            euclidean x (centroid latent_proj cluster_labels c))
                          (unique_clusters cluster_labels))))
              latent_proj).
Proof.
  intros Hu Hlen. unfold cluster_distance.
  destruct (unique_clusters cluster_labels) as [|c cs] eqn:E; [congruence|].
  cbn [length Nat.ltb Nat.leb].
  rewrite Hlen, Nat.eqb_refl. unfold pairwise_distances.
  rewrite map_map. f_equal. apply map_ext. intros x.
  rewrite map_map. reflexivity.
Qed.

Lemma nearest_centroid_row_min (latent_proj : matrix) (cluster_labels : list Z)
    (x : vec) :
  unique_clusters cluster_labels <> [] ->
  nearest_centroid_distance latent_proj cluster_labels x
    (row_min (map (fun c => euclidean x (centroid latent_proj cluster_labels c))
                  (unique_clusters cluster_labels))).
Proof.
  intros Hu.
  set (row := map _ (unique_clusters cluster_labels)).
  assert (Hrow : row <> []).
  { subst row. destruct (unique_clusters cluster_labels); [congruence|].
    discriminate. }
  destruct (row_min_is_minimum row Hrow) as [Hin Hle]. split.
  - subst row. apply in_map_iff in Hin. destruct Hin as (c & Hc & Hcu).
    apply unique_clusters_spec in Hcu. destruct Hcu as [Hcl Hne].
    exists c. repeat split; [exact Hcl | exact Hne | symmetry; exact Hc].
  - intros c Hcl Hne. apply Hle. subst row. apply in_map_iff.
    exists c. split; [reflexivity|].
    apply unique_clusters_spec. split; assumption.
Qed.

Lemma vadd_length (a b : vec) :
  length (vadd a b) = Nat.min (length a) (length b).
Proof. apply zip_with_length. Qed.

Lemma vadd_nth (a : vec) :
  forall b j, (j < length a)%nat -> (j < length b)%nat ->
    nth j (vadd a b) 0 = nth j a 0 + nth j b 0.
Proof.
  unfold vadd.
  induction a as [|x a IH]; intros [|y b] [|j] Ha Hb; simpl in *;
    try lia; try reflexivity.
  apply IH; lia.
Qed.

Lemma fold_left_vadd_nth (width j : nat) (rs : matrix) :
  forall r,
    length r = width -> Forall (fun row => length row = width) rs ->
    (j < width)%nat ->
    nth j (fold_left vadd rs r) 0
    = nth j r 0 + vsum (map (fun row => nth j row 0) rs).
Proof.
  induction rs as [|a rs IH]; intros r Hr Hrs Hj.
  - cbn [fold_left map]. rewrite vsum_nil. lra.
  - inversion Hrs as [|? ? Ha Hrs']; subst.
    cbn [fold_left map]. rewrite vsum_cons.
    rewrite IH; [| rewrite vadd_length; lia | exact Hrs' | exact Hj].
    rewrite vadd_nth by lia. lra.
Qed.

(** [mean(axis=0)] is the arithmetic mean of the rows, coordinate by
    coordinate. *)
Lemma col_mean_nth (width j : nat) (m : matrix) :
  m <> [] -> Forall (fun row => length row = width) m -> (j < width)%nat ->
  nth j (col_mean m) 0
  = vsum (map (fun row => nth j row 0) m) / INR (length m).
Proof.
  intros Hm Hw Hj. destruct m as [|r rs]; [congruence|].
  inversion Hw as [|? ? Hr Hrs]; subst.
  unfold col_mean.
  replace 0 with (0 / INR (length (r :: rs))) at 1 by (unfold Rdiv; ring).
  rewrite (map_nth (fun s => s / INR (length (r :: rs)))).
  rewrite (fold_left_vadd_nth (length r) j rs r eq_refl Hrs Hj).
  cbn [map]. rewrite vsum_cons. reflexivity.
Qed.

Lemma members_length (latent_proj : matrix) (cluster_labels : list Z) (c : Z) :
  length cluster_labels = length latent_proj ->
  length (members latent_proj cluster_labels c)
  = count_occ Z.eq_dec cluster_labels c.
Proof.
  intros H. unfold members. rewrite length_map.
  apply count_rows_with_label. symmetry. exact H.
Qed.

Lemma members_rows (latent_proj : matrix) (cluster_labels : list Z) (c : Z)
    (row : vec) :
  In row (members latent_proj cluster_labels c) -> In row latent_proj.
Proof.
  unfold members. intros H. apply in_map_iff in H.
  destruct H as ([x l] & <- & H). apply filter_In in H. destruct H as [H _].
  apply in_combine_l in H. exact H.
Qed.

(** The centroid of a label that occurs is the arithmetic mean of the
    projected latents of the rows with that label. *)
Lemma centroid_is_mean_of_members (latent_proj : matrix)
    (cluster_labels : list Z) (c : Z) (width j : nat) :
  length cluster_labels = length latent_proj ->
  In c cluster_labels ->
  Forall (fun row => length row = width) latent_proj -> (j < width)%nat ->
  nth j (centroid latent_proj cluster_labels c) 0
  = vsum (map (fun row => nth j row 0) (members latent_proj cluster_labels c))
    / INR (count_occ Z.eq_dec cluster_labels c).
Proof.
  intros Hlen Hin Hw Hj. unfold centroid.
  rewrite <- (members_length latent_proj cluster_labels c Hlen).
  apply col_mean_nth with (width := width); [| |exact Hj].
  - intros E. apply (f_equal (@length vec)) in E.
    rewrite members_length in E by exact Hlen.
    apply (count_occ_In Z.eq_dec) in Hin. simpl in E. lia.
  - apply Forall_forall. intros row Hrow.
    rewrite Forall_forall in Hw. apply Hw.
    eapply members_rows. exact Hrow.
Qed.

(** The running sum over the rows labelled [c] is the sum over the rows
    the script selects with its boolean mask. *)
Lemma sum_members_members (c : Z) (j : nat) (rows : matrix) :
  forall labels acc,
    sum_members acc rows labels c j
    = acc + vsum (map (fun row => nth j row 0) (members rows labels c)).
Proof.
  unfold members.
  induction rows as [|x rows IH]; intros [|l labels] acc;
    cbn [sum_members combine filter map snd fst];
    try (rewrite vsum_nil; lra).
  rewrite IH. destruct (l =? c)%Z; cbn [map fst].
  - rewrite vsum_cons. lra.
  - reflexivity.
Qed.

Lemma fold_left_vadd_length (width : nat) (rs : matrix) :
  forall r,
    length r = width -> Forall (fun row => length row = width) rs ->
    length (fold_left vadd rs r) = width.
Proof.
  induction rs as [|a rs IH]; intros r Hr Hrs; [exact Hr|].
  inversion Hrs as [|? ? Ha Hrs']; subst. cbn [fold_left].
  apply IH; [rewrite vadd_length; lia | exact Hrs'].
Qed.

Lemma col_mean_length (width : nat) (m : matrix) :
  m <> [] -> Forall (fun row => length row = width) m ->
  length (col_mean m) = width.
Proof.
  intros Hm Hw. destruct m as [|r rs]; [congruence|].
  inversion Hw as [|? ? Hr Hrs]; subst.
  unfold col_mean. rewrite length_map.
  apply fold_left_vadd_length; [reflexivity | exact Hrs].
Qed.

(** The centroid the script computes for a label that occurs is the
    reference mean of the rows with that label. *)
Lemma centroid_mean_of_members (latent_proj : matrix)
    (cluster_labels : list Z) (c : Z) (width : nat) :
  length cluster_labels = length latent_proj ->
  In c cluster_labels ->
  Forall (fun row => length row = width) latent_proj ->
  centroid latent_proj cluster_labels c
  = mean_of_members latent_proj cluster_labels c width.
Proof.
  intros Hlen Hin Hw.
  assert (Hcl : length (centroid latent_proj cluster_labels c) = width).
  { unfold centroid. apply col_mean_length.
    - intros E. apply (f_equal (@length vec)) in E.
      rewrite members_length in E by exact Hlen.
      apply (count_occ_In Z.eq_dec) in Hin. simpl in E. lia.
    - apply Forall_forall. intros row Hrow.
      rewrite Forall_forall in Hw. apply Hw.
      eapply members_rows. exact Hrow. }
  assert (Hml : length (mean_of_members latent_proj cluster_labels c width)
                = width).
  { unfold mean_of_members. rewrite length_map, length_seq. reflexivity. }
  apply (nth_ext _ _ 0 0).
  - rewrite Hcl, Hml. reflexivity.
  - intros j Hj. rewrite Hcl in Hj.
    rewrite (centroid_is_mean_of_members _ _ _ width j Hlen Hin Hw Hj).
    unfold mean_of_members.
    rewrite (nth_indep _ 0
               ((fun j0 => sum_members 0 latent_proj cluster_labels c j0
                           / INR (count_occ Z.eq_dec cluster_labels c)) 0%nat))
      by (rewrite length_map, length_seq; exact Hj).
    rewrite (map_nth (fun j0 => sum_members 0 latent_proj cluster_labels c j0
                                / INR (count_occ Z.eq_dec cluster_labels c))).
    rewrite seq_nth by exact Hj. cbn [Nat.add].
    rewrite sum_members_members. f_equal. lra.
Qed.

(** C2. For a projected latent array of [width] columns with one label
    per row: when some label is not -1, the cluster_distance of every row
    is the least, over the labels other than -1, of the Euclidean distance
    (the square root of the sum of the squared coordinate differences)
    from the row's projected latent to the label's centroid, the centroid
    being, in every coordinate, the sum over the rows with that label
    divided by their number; and cluster_distance is the infinity sentinel
    in every row exactly when no label other than -1 occurs. *)
Theorem cluster_distance_nearest_centroid (latent_proj : matrix)
    (cluster_labels : list Z) (width : nat)
    (Hlen : length cluster_labels = length latent_proj)
    (Hrect : Forall (fun row => length row = width) latent_proj) :
  exists cd,
    cluster_distance latent_proj cluster_labels = Some cd /\
    length cd = length latent_proj /\
    ((exists c, In c cluster_labels /\ c <> (-1)%Z) ->
     forall i x, nth_error latent_proj i = Some x ->
       exists d, nth_error cd i = Some (finite d) /\
                 nearest_mean_distance latent_proj cluster_labels width x d) /\
    (Forall (fun d => d = pos_inf) cd
     <-> forall c, In c cluster_labels -> c = (-1)%Z).
Proof.
  destruct (unique_clusters cluster_labels) as [|c0 cs] eqn:Eu.
  - (* no cluster *)
    exists (repeat pos_inf (length latent_proj)).
    split; [apply cluster_distance_no_clusters; exact Eu|].
    split; [apply repeat_length|].
    split.
    + intros (c & Hin & Hne). exfalso.
      apply Hne. apply (proj1 (unique_clusters_empty cluster_labels) Eu).
      exact Hin.
    + split.
      * intros _. apply (proj1 (unique_clusters_empty cluster_labels) Eu).
      * intros _. apply Forall_forall. intros d Hd.
        apply repeat_spec in Hd. exact Hd.
  - (* at least one cluster *)
    assert (Hu : unique_clusters cluster_labels <> []) by (rewrite Eu; discriminate).
    eexists. split; [apply cluster_distance_with_clusters; assumption|].
    split; [apply length_map|].
    split.
    + intros _ i x Hx.
      eexists. split.
      * rewrite nth_error_map, Hx. reflexivity.
      * destruct (nearest_centroid_row_min latent_proj cluster_labels x Hu)
          as [(c & Hin & Hne & Hd) Hle].
        split.
        -- exists c. split; [exact Hin|]. split; [exact Hne|].
           rewrite Hd, euclidean_euclidean_distance.
           rewrite (centroid_mean_of_members _ _ _ width Hlen Hin Hrect).
           reflexivity.
        -- intros c' Hin' Hne'.
           rewrite <- (centroid_mean_of_members _ _ _ width Hlen Hin' Hrect).
           rewrite <- euclidean_euclidean_distance.
           apply Hle; assumption.
    + split.
      * intros Hall. exfalso.
        assert (Hc0 : In c0 cluster_labels).
        { apply (unique_clusters_spec cluster_labels c0).
          rewrite Eu. left. reflexivity. }
        destruct latent_proj as [|x rest].
        { destruct cluster_labels; [destruct Hc0 | discriminate]. }
        cbn [map] in Hall. inversion Hall as [|? ? Hhead _]. discriminate.
      * intros Hnone.
        pose proof (proj2 (unique_clusters_empty cluster_labels) Hnone).
        congruence.
Qed.

(** Two rows in cluster 0 and one noise row. *)
Lemma cluster_distance_nearest_centroid_witness :
  exists cd,
    cluster_distance [[0]; [2]; [5]] [0; 0; -1]%Z = Some cd /\
    length cd = 3%nat /\
    exists d, nth_error cd 2 = Some (finite d) /\
              nearest_mean_distance [[0]; [2]; [5]] [0; 0; -1]%Z 1 [5] d.
Proof.
  assert (Hrect : Forall (fun row : vec => length row = 1%nat)
                         [[0]; [2]; [5]])
    by (repeat constructor).
  destruct (cluster_distance_nearest_centroid [[0]; [2]; [5]] [0; 0; -1]%Z
              1%nat eq_refl Hrect) as (cd & Hcd & Hl & Hnear & _).
  exists cd. split; [exact Hcd|]. split; [exact Hl|].
  assert (Hex : exists c, In c [0; 0; -1]%Z /\ c <> (-1)%Z)
    by (exists 0%Z; split; [left; reflexivity | discriminate]).
  apply (Hnear Hex 2%nat [5] eq_refl).
Defined.

(** The reference mean by hand: the rows 0 and 2 of cluster 0 have mean 1,
    at distance 4 from the row 5. *)
Example mean_of_members_three_rows :
  mean_of_members [[0]; [2]; [5]] [0; 0; -1]%Z 0 1 = [(0 + 0 + 2) / 2] /\
  euclidean_distance [5] [1] = 4.
Proof.
  split.
  - unfold mean_of_members.
    cbn [seq map sum_members Z.eqb nth count_occ].
    lazy -[Rplus Rmult Rminus Rdiv Rinv Ropp exp ln sqrt Rmax Rmin INR IZR pow].
    assert (H2 : INR 2 = 2) by (simpl; lra). rewrite H2. reflexivity.
  - unfold euclidean_distance. cbn [sq_dist].
    replace ((5 - 1) * (5 - 1) + 0) with (4 * 4) by lra.
    apply sqrt_square. lra.
Qed.

(** The same three rows by hand: the centroid of cluster 0 is 1, so the
    two members are at distance 1 and the noise row 5 at distance 4. *)
Example cluster_distance_three_rows :
  cluster_distance [[0]; [2]; [5]] [0; 0; -1]%Z
  = Some [finite 1; finite 1; finite 4].
Proof.
  lazy -[Rplus Rmult Rminus Rdiv Rinv Ropp exp ln sqrt Rmax Rmin INR IZR pow].
  assert (H2 : INR 2 = 2) by (simpl; lra). rewrite H2.
  replace ((0 - (0 + 2) / 2) ^ 2 + 0) with (1 * 1) by (simpl; lra).
  replace ((2 - (0 + 2) / 2) ^ 2 + 0) with (1 * 1) by (simpl; lra).
  replace ((5 - (0 + 2) / 2) ^ 2 + 0) with (4 * 4) by (simpl; lra).
  rewrite !sqrt_square by lra. reflexivity.
Qed.

(** Without a cluster every row carries the sentinel. *)
Example cluster_distance_all_noise :
  cluster_distance [[0]; [2]] [-1; -1]%Z = Some [pos_inf; pos_inf].
Proof. reflexivity. Qed.

(** An input without rows never reaches the training loop: the statistics
    printed after loading abort the run. *)
Example main_empty_input_aborts (L : libs) (cfg : config) (rnd : randomness)
    (read_ids : list string) :
  main L cfg rnd read_ids [] = None.
Proof.
  unfold main, align.
  destruct (negb (length read_ids =? length (@nil vec))%nat);
    cbn [Nat.min length firstn]; rewrite ?Nat.min_0_r; reflexivity.
Qed.

(** * Further properties *)

(** ** The losses are never negative *)

Lemma vsum_nonneg (v : vec) : Forall (fun a => 0 <= a) v -> 0 <= vsum v.
Proof.
  induction 1 as [|a v Ha _ IH]; [rewrite vsum_nil | rewrite vsum_cons]; lra.
Qed.

Lemma mean_nonneg (v : vec) : Forall (fun a => 0 <= a) v -> 0 <= mean v.
Proof.
  intros H. unfold mean. destruct v as [|a v].
  - rewrite vsum_nil. unfold Rdiv. rewrite Rmult_0_l. lra.
  - apply Rmult_le_pos; [apply vsum_nonneg; exact H|].
    left. apply Rinv_0_lt_compat. apply lt_0_INR. simpl. lia.
Qed.

Lemma Forall_zip_with {A B C : Type} (P : C -> Prop) (f : A -> B -> C)
    (xs : list A) :
  forall ys, (forall a b, P (f a b)) -> Forall P (zip_with f xs ys).
Proof.
  induction xs as [|a xs IH]; intros [|b ys] H; simpl; constructor.
  - apply H.
  - apply IH. exact H.
Qed.

Lemma mse_row_nonneg (a b : vec) : 0 <= mse_row a b.
Proof.
  unfold mse_row. apply mean_nonneg. apply Forall_forall.
  intros d Hd. apply in_map_iff in Hd. destruct Hd as (e & <- & _).
  apply pow2_ge_0.
Qed.

Lemma kl_gauss_nonneg (m lv : R) : 0 <= kl_gauss m (exp lv).
Proof.
  unfold kl_gauss. rewrite ln_exp.
  pose proof (exp_ineq1_le lv). pose proof (pow2_ge_0 m). lra.
Qed.

Lemma kl_to_standard_normal_nonneg (mu logvar : vec) :
  0 <= kl_to_standard_normal mu logvar.
Proof.
  unfold kl_to_standard_normal. apply vsum_nonneg.
  apply Forall_zip_with. intros m lv. apply kl_gauss_nonneg.
Qed.

(** X1. Whatever the model, the batch and the draws: the reconstruction
    loss, every per-sample reconstruction error and the KL term returned by
    [vae_losses] are non-negative, and so is the total loss of a minibatch
    for a non-negative beta. *)
Theorem losses_never_negative (cfg : config) (beta : R) (b : batch_draw)
    (p : params) (Hbeta : 0 <= beta) :
  (forall x x_recon mu logvar,
     0 <= fst (fst (vae_losses x x_recon mu logvar)) /\
     0 <= snd (fst (vae_losses x x_recon mu logvar)) /\
     Forall (fun e => 0 <= e) (snd (vae_losses x x_recon mu logvar))) /\
  0 <= batch_loss cfg beta b p.
Proof.
  assert (Hl : forall x x_recon mu logvar,
     0 <= fst (fst (vae_losses x x_recon mu logvar)) /\
     0 <= snd (fst (vae_losses x x_recon mu logvar)) /\
     Forall (fun e => 0 <= e) (snd (vae_losses x x_recon mu logvar))).
  { intros x x_recon mu logvar. unfold vae_losses. cbn [fst snd].
    assert (Hr : Forall (fun e => 0 <= e) (zip_with mse_row x_recon x))
      by (apply Forall_zip_with; intros; apply mse_row_nonneg).
    split; [apply mean_nonneg; exact Hr|]. split; [|exact Hr].
    apply mean_nonneg. apply Forall_zip_with. intros m lv.
    rewrite kld_closed_form. apply kl_to_standard_normal_nonneg. }
  split; [exact Hl|].
  unfold batch_loss, batch_losses.
  destruct (forward p _ (eps_draw b)) as [[x_recon mu] logvar].
  specialize (Hl (x_batch b) x_recon mu logvar).
  destruct (vae_losses (x_batch b) x_recon mu logvar) as [[r k] per].
  cbn [fst snd] in *. destruct Hl as (Hr & Hk & _).
  pose proof (Rmult_le_pos _ _ Hbeta Hk). lra.
Qed.

Lemma losses_never_negative_witness :
  0 <= batch_loss default_config 1 tiny_batch tiny_params.
Proof.
  assert (H : 0 <= 1) by lra.
  exact (proj2 (losses_never_negative default_config 1 tiny_batch
                  tiny_params H)).
Defined.

(** ** What the epoch summaries record *)

Section EpochSummaries.
Context {optimizer_state : Type}.
Variable optimizer_step :
  (params -> R) -> params * optimizer_state -> params * optimizer_state.





End EpochSummaries.


(** ** The epoch log line *)

Lemma should_log_defined (cfg : config) (epoch : Z) :
  should_log cfg epoch
  = Some ((epoch mod Z.max 1 (epochs cfg / 10) =? 0)%Z
          || (epoch =? 1)%Z || (epoch =? epochs cfg)%Z).
Proof.
  unfold should_log, py_mod.
  destruct (Z.eqb_spec (Z.max 1 (epochs cfg / 10)) 0) as [E|E];
    [lia | reflexivity].
Qed.

(** X4. Deciding whether to print the epoch summary never divides by zero,
    whatever the number of epochs; the first and the last epoch are always
    printed; and with fewer than 20 epochs every epoch is printed. *)
Theorem should_log_first_last_all (cfg : config) (epoch : Z)
    (Hfew : (epochs cfg < 20)%Z) :
  (forall cfg' e, exists b, should_log cfg' e = Some b) /\
  (forall cfg', should_log cfg' 1 = Some true) /\
  (forall cfg', should_log cfg' (epochs cfg') = Some true) /\
  should_log cfg epoch = Some true.
Proof.
  split; [|split; [|split]].
  - intros cfg' e. rewrite should_log_defined. eexists. reflexivity.
  - intros cfg'. rewrite should_log_defined. cbn [Z.eqb].
    rewrite orb_true_r. reflexivity.
  - intros cfg'. rewrite should_log_defined, Z.eqb_refl.
    rewrite orb_true_r. reflexivity.
  - rewrite should_log_defined.
    assert (Hstep : Z.max 1 (epochs cfg / 10) = 1%Z).
    { assert (epochs cfg / 10 < 2)%Z
        by (apply Z.div_lt_upper_bound; lia).
      lia. }
    rewrite Hstep, Z.mod_1_r. reflexivity.
Qed.

Lemma should_log_first_last_all_witness :
  should_log short_config 7 = Some true.
Proof.
  assert (H : (epochs short_config < 20)%Z) by (simpl; lia).
  exact (proj2 (proj2 (proj2 (should_log_first_last_all short_config 7 H)))).
Defined.

(** With the 50 epochs of the script, epoch 7 is passed over. *)
Example should_log_skips_7_of_50 : should_log default_config 7 = Some false.
Proof. reflexivity. Qed.

(** ** Shapes *)

Lemma apply_linear_length (l : Linear) (n_out : nat) (x : vec) :
  linear_out l n_out -> length (apply_linear l x) = n_out.
Proof.
  intros [Hw Hb]. unfold apply_linear.
  rewrite vadd_length, length_map. lia.
Qed.

Lemma reparameterize1_length (mu logvar eps : vec) (n : nat) :
  length mu = n -> length logvar = n -> length eps = n ->
  length (reparameterize1 mu logvar eps) = n.
Proof.
  intros Hm Hl He. unfold reparameterize1.
  rewrite vadd_length, zip_with_length, !length_map. lia.
Qed.

Lemma zip_with3_length {A B C D : Type} (f : A -> B -> C -> D) (xs : list A) :
  forall ys zs,
    length (zip_with3 f xs ys zs)
    = Nat.min (length xs) (Nat.min (length ys) (length zs)).
Proof.
  induction xs as [|x xs IH]; intros [|y ys] [|z zs]; simpl; try reflexivity.
  now rewrite IH.
Qed.

(** X5. For a model built as VAE(input_dim, hidden_dim, latent_dim), a batch
    of N rows and a draw of shape N x latent_dim: the means and the
    log-variances have shape N x latent_dim, the reconstruction has shape
    N x input_dim, and the extraction yields an N x latent_dim latent
    matrix and N reconstruction errors. *)
Theorem forward_shapes (p : params) (input_dim latent_dim N : nat)
    (x eps : matrix)
    (Hp : vae_shape p input_dim latent_dim)
    (Hx : length x = N) (Heps : has_shape eps N latent_dim) :
  has_shape (fst (fst (forward p x eps))) N input_dim /\
  has_shape (snd (fst (forward p x eps))) N latent_dim /\
  has_shape (snd (forward p x eps)) N latent_dim /\
  has_shape (fst (extract p x eps)) N latent_dim /\
  length (snd (extract p x eps)) = N.
Proof.
  destruct Hp as (Hmu & Hlv & H3). destruct Heps as [Hen Hed].
  assert (Hm : has_shape (map (fun r => fst (encode1 p r)) x) N latent_dim).
  { split; [rewrite length_map; exact Hx|].
    apply Forall_forall. intros row Hrow. apply in_map_iff in Hrow.
    destruct Hrow as (r & <- & _). apply apply_linear_length. exact Hmu. }
  assert (Hl : has_shape (map (fun r => snd (encode1 p r)) x) N latent_dim).
  { split; [rewrite length_map; exact Hx|].
    apply Forall_forall. intros row Hrow. apply in_map_iff in Hrow.
    destruct Hrow as (r & <- & _). apply apply_linear_length. exact Hlv. }
  assert (Hz : length (reparameterize (map (fun r => fst (encode1 p r)) x)
                                      (map (fun r => snd (encode1 p r)) x) eps)
               = N).
  { unfold reparameterize. rewrite zip_with3_length, !length_map. lia. }
  assert (Hr : has_shape
                 (decode p (reparameterize (map (fun r => fst (encode1 p r)) x)
                              (map (fun r => snd (encode1 p r)) x) eps))
                 N input_dim).
  { unfold decode. split; [rewrite length_map; exact Hz|].
    apply Forall_forall. intros row Hrow. apply in_map_iff in Hrow.
    destruct Hrow as (z & <- & _). apply apply_linear_length. exact H3. }
  unfold forward, extract, encode. cbn [fst snd].
  repeat split; try apply Hm; try apply Hl; try apply Hr.
  rewrite zip_with_length. destruct Hr as [-> _]. lia.
Qed.

Lemma forward_shapes_witness :
  has_shape (snd (fst (forward tiny_params [[1]; [2]] [[0]; [1]]))) 2 1 /\
  length (snd (extract tiny_params [[1]; [2]] [[0]; [1]])) = 2%nat.
Proof.
  assert (Hp : vae_shape tiny_params 1 1) by (repeat split).
  assert (He : has_shape [[0]; [1]] 2 1)
    by (split; [reflexivity | repeat constructor]).
  destruct (forward_shapes tiny_params 1 1 2 [[1]; [2]] [[0]; [1]] Hp eq_refl He)
    as (_ & Hmu & _ & _ & Hn).
  split; assumption.
Defined.

(** ** When a run writes no table *)

Lemma size_firstn_0 (m : matrix) : size (firstn 0 m) = 0%nat.
Proof. reflexivity. Qed.

Lemma size_empty_rows (m : matrix) :
  Forall (fun row => row = []) m -> size m = 0%nat.
Proof.
  unfold size. induction 1 as [|row m Hrow _ IH]; [reflexivity|].
  subst row. exact IH.
Qed.

Lemma main_aborts_without_elements (L : libs) (cfg : config)
    (rnd : randomness) (read_ids : list string) (embeddings : matrix) :
  size (aligned_X read_ids embeddings) = 0%nat ->
  main L cfg rnd read_ids embeddings = None.
Proof.
  unfold main, aligned_X. intros H.
  destruct (align read_ids embeddings) as [[ids X] log0]. cbn [fst snd] in H.
  rewrite H. reflexivity.
Qed.

Lemma Forall_firstn {T : Type} (P : T -> Prop) (n : nat) (l : list T) :
  Forall P l -> Forall P (firstn n l).
Proof.
  intros H. revert n.
  induction H as [|x l Hx _ IH]; intros [|n]; cbn; constructor.
  - exact Hx.
  - apply IH.
Qed.

(** X6. A run on data without a single element stops before training and
    writes no table: so it is when there is no identifier (the embeddings
    are then cut to zero rows), when there is no embedding row, and when
    every embedding row is empty. *)
Theorem main_aborts_on_empty_input (L : libs) (cfg : config)
    (rnd : randomness) (read_ids : list string) (embeddings : matrix)
    (Hempty : read_ids = [] \/ embeddings = [] \/
              Forall (fun row => row = []) embeddings) :
  main L cfg rnd read_ids embeddings = None.
Proof.
  apply main_aborts_without_elements. unfold aligned_X, align.
  destruct Hempty as [-> | [-> | Hrows]].
  - destruct embeddings; reflexivity.
  - destruct (negb (length read_ids =? length (@nil vec))%nat);
      cbn [fst snd]; rewrite ?Nat.min_0_r; reflexivity.
  - destruct (negb (length read_ids =? length embeddings)%nat); cbn [fst snd];
      apply size_empty_rows; [apply Forall_firstn|]; exact Hrows.
Qed.

Lemma main_aborts_on_empty_input_witness :
  main plain_libs default_config no_batches [] two_rows = None.
Proof.
  apply main_aborts_on_empty_input. left. reflexivity.
Defined.

(** X7. Clustering has no fallback: when the clusterer call of the run,
    with the configured min_cluster_size and min_samples on the projected
    latents of the trained model, raises, the run aborts before either
    table is built, whatever the projection stage did. *)
Theorem clustering_failure_is_fatal (L : libs) (cfg : config)
    (rnd : randomness) (read_ids : list string) (embeddings : matrix)
    (Hfail : forall trained,
       train (optimizer_step L) cfg (loader rnd)
             (init_params rnd, optimizer_init L (init_params rnd))
       = Some trained ->
       hdbscan_fit_predict L (hdbscan_min_cluster_size cfg)
         (hdbscan_min_samples cfg)
         (latent_proj (projected L cfg (fst (fst trained))
                         (aligned_X read_ids embeddings) (eps_final rnd)))
       = None) :
  main L cfg rnd read_ids embeddings = None.
Proof.
  destruct (main L cfg rnd read_ids embeddings) as [out|] eqn:E;
    [|reflexivity].
  apply main_inv in E. destruct E as (trained & labels & cd & H).
  destruct H as (_ & Ht & Hh & _). rewrite (Hfail trained Ht) in Hh.
  discriminate.
Qed.

(** A clusterer that accepts three rows and raises on the two rows of this
    run. *)
Lemma clustering_failure_is_fatal_witness :
  hdbscan_fit_predict picky_cluster_libs 30 10 [[1]; [2]; [3]]
  = Some [0; 0; 0]%Z /\
  main picky_cluster_libs default_config no_batches three_ids two_rows
  = None.
Proof.
  split; [reflexivity|].
  apply clustering_failure_is_fatal. intros trained _.
  unfold projected. rewrite extract_per_read. reflexivity.
Defined.

(** ** The truncation warning *)

Lemma pca_or_scaled_events {A : Type}
    (pca : nat -> list (list A) -> option (list (list A) * npfloat))
    (cfg : config) (m : list (list A)) (log : list string) (msg : string) :
  In msg (events (pca_or_scaled pca cfg m log)) ->
  In msg log \/ msg = msg_pca \/ msg = msg_pca_ok \/ msg = msg_pca_failed.
Proof.
  unfold pca_or_scaled.
  destruct (pca _ m) as [[proj e]|]; [destruct (isnan e)|]; cbn [events];
    intros H; apply in_app_or in H; destruct H as [H|H]; auto;
    cbn in H; intuition auto.
Qed.

Lemma reduce_events {A : Type} (has_umap : bool)
    (umap : nat -> list (list A) -> option (list (list A)))
    (pca : nat -> list (list A) -> option (list (list A) * npfloat))
    (cfg : config) (m : list (list A)) (msg : string) :
  In msg (events (reduce has_umap umap pca cfg m)) ->
  In msg [msg_umap; msg_umap_ok; msg_umap_failed;
          msg_pca; msg_pca_ok; msg_pca_failed].
Proof.
  unfold reduce. destruct has_umap.
  - destruct (umap _ m) as [proj|]; cbn [negb orb is_none events].
    + cbn. intuition auto.
    + intros H. apply pca_or_scaled_events in H. cbn in *. intuition auto.
  - cbn [negb orb]. intros H. apply pca_or_scaled_events in H.
    cbn in *. intuition auto.
Qed.

Lemma truncation_warning_printed (L : libs) (cfg : config) (rnd : randomness)
    (read_ids : list string) (embeddings : matrix) (out : outputs) :
  main L cfg rnd read_ids embeddings = Some out ->
  (In truncation_warning (printed out)
   <-> length read_ids <> length embeddings).
Proof.
  intros Hmain.
  apply main_inv in Hmain. destruct Hmain as (trained & labels & cd & H).
  destruct H as (_ & _ & _ & _ & _ & _ & _ & _ & _ & Hp).
  rewrite Hp. split.
  - intros Hin Heq. rewrite align_match in Hin by exact Heq.
    cbn [snd app] in Hin. unfold projected in Hin.
    apply reduce_events in Hin. cbn in Hin.
    repeat (destruct Hin as [Hin|Hin]; [discriminate|]). exact Hin.
  - intros Hne. rewrite align_mismatch by exact Hne.
    cbn [snd]. left. reflexivity.
Qed.

Lemma tables_when_lengths_agree (L : libs) (cfg : config) (rnd : randomness)
    (read_ids : list string) (embeddings : matrix) (out : outputs) :
  main L cfg rnd read_ids embeddings = Some out ->
  length read_ids = length embeddings ->
  map fst (clusters_df out) = read_ids /\
  map (fun row => fst (fst row)) (novelty_df out) = read_ids /\
  length (clusters_df out) = length embeddings /\
  length (novelty_df out) = length embeddings.
Proof.
  intros Hmain Heq.
  pose proof (tables_of_completed_run _ _ _ _ _ _ Hmain) as (Hc & Hn & Hci & Hni).
  rewrite Hc, Hn, Hci, Hni.
  unfold aligned_ids. rewrite align_match by exact Heq. cbn [fst].
  repeat split; exact Heq.
Qed.

(** X8. In a run that writes its tables the truncation warning is printed
    exactly when the identifiers and the embedding rows differ in number;
    when they agree, nothing is cut: the tables have one row per embedding
    row and the identifier column is the list of identifiers as loaded. *)
Theorem warning_only_on_mismatch (L : libs) (cfg : config) (rnd : randomness)
    (read_ids : list string) (embeddings : matrix) (out : outputs)
    (Hmain : main L cfg rnd read_ids embeddings = Some out) :
  (In truncation_warning (printed out)
   <-> length read_ids <> length embeddings) /\
  (length read_ids = length embeddings ->
   map fst (clusters_df out) = read_ids /\
   map (fun row => fst (fst row)) (novelty_df out) = read_ids /\
   length (clusters_df out) = length embeddings /\
   length (novelty_df out) = length embeddings).
Proof.
  split.
  - apply (truncation_warning_printed L cfg rnd). exact Hmain.
  - apply (tables_when_lengths_agree L cfg rnd). exact Hmain.
Qed.

Lemma warning_only_on_mismatch_witness :
  exists out,
    main plain_libs default_config no_batches three_ids two_rows = Some out /\
    (In truncation_warning (printed out)
     <-> length three_ids <> length two_rows).
Proof.
  destruct plain_run_completes as [out Hmain].
  exists out. split; [exact Hmain|].
  exact (proj1 (warning_only_on_mismatch _ _ _ _ _ _ Hmain)).
Defined.

(** ** The values of the novelty table *)

Lemma fold_left_Rmin_nonneg (ds : vec) :
  forall d, 0 <= d -> Forall (fun a => 0 <= a) ds -> 0 <= fold_left Rmin ds d.
Proof.
  induction ds as [|a ds IH]; intros d Hd Hds; [exact Hd|].
  inversion Hds as [|? ? Ha Hds']; subst. cbn [fold_left].
  apply IH; [apply Rmin_glb; assumption | exact Hds'].
Qed.

Lemma row_min_nonneg (row : vec) :
  Forall (fun a => 0 <= a) row -> 0 <= row_min row.
Proof.
  intros H. destruct row as [|d ds]; [simpl; lra|].
  inversion H; subst. apply fold_left_Rmin_nonneg; assumption.
Qed.

Lemma cluster_distance_values (latent_proj : matrix) (cluster_labels : list Z)
    (cd : list npfloat) :
  cluster_distance latent_proj cluster_labels = Some cd ->
  Forall (fun d => d = pos_inf \/ exists r, d = finite r /\ 0 <= r) cd.
Proof.
  unfold cluster_distance.
  destruct (0 <? length (unique_clusters cluster_labels))%nat.
  - destruct (length cluster_labels =? length latent_proj)%nat;
      [|discriminate].
    intros H. injection H as <-. apply Forall_forall. intros d Hd.
    apply in_map_iff in Hd. destruct Hd as (row & <- & Hrow).
    right. eexists. split; [reflexivity|].
    apply row_min_nonneg. unfold pairwise_distances in Hrow.
    apply in_map_iff in Hrow. destruct Hrow as (x & <- & _).
    apply Forall_forall. intros a Ha. apply in_map_iff in Ha.
    destruct Ha as (c & <- & _). apply sqrt_pos.
  - intros H. injection H as <-. apply Forall_forall. intros d Hd.
    apply repeat_spec in Hd. left. exact Hd.
Qed.

(** X9. Every row of the novelty table has a non-negative recon_error, and
    its cluster_distance is either the infinity sentinel or a non-negative
    number; no NaN and no negative value is written. *)
Theorem novelty_values_nonnegative (L : libs) (cfg : config)
    (rnd : randomness) (read_ids : list string) (embeddings : matrix)
    (out : outputs)
    (Hmain : main L cfg rnd read_ids embeddings = Some out) :
  Forall (fun row =>
            0 <= snd (fst row) /\
            (snd row = pos_inf \/ exists d, snd row = finite d /\ 0 <= d))
         (novelty_df out).
Proof.
  apply main_inv in Hmain. destruct Hmain as (trained & labels & cd & H).
  destruct H as (_ & _ & _ & Hcd & _ & _ & _ & _ & Hn & _).
  rewrite Hn. apply Forall_forall. intros [[id e] d] Hrow. cbn [fst snd].
  pose proof (in_combine_l _ _ _ _ Hrow) as Hl.
  pose proof (in_combine_r _ _ _ _ Hrow) as Hd.
  apply in_combine_r in Hl. split.
  - rewrite extract_per_read in Hl. cbn [snd] in Hl.
    assert (Hall : Forall (fun a => 0 <= a)
                     (zip_with (sampled_recon_error (fst (fst trained)))
                        (aligned_X read_ids embeddings) (eps_final rnd))).
    { apply Forall_zip_with. intros x eps. unfold sampled_recon_error.
      destruct (encode1 (fst (fst trained)) x). apply mse_row_nonneg. }
    rewrite Forall_forall in Hall. apply Hall. exact Hl.
  - pose proof (cluster_distance_values _ _ _ Hcd) as Hall.
    rewrite Forall_forall in Hall. apply Hall. exact Hd.
Qed.

Lemma novelty_values_nonnegative_witness :
  exists out,
    main plain_libs default_config no_batches three_ids two_rows = Some out /\
    Forall (fun row =>
              0 <= snd (fst row) /\
              (snd row = pos_inf \/ exists d, snd row = finite d /\ 0 <= d))
           (novelty_df out).
Proof.
  destruct plain_run_completes as [out Hmain].
  exists out. split; [exact Hmain|].
  exact (novelty_values_nonnegative _ _ _ _ _ _ Hmain).
Defined.

(** ** When a run does write its tables *)

Lemma plain_libs_well_shaped : well_shaped plain_libs.
Proof.
  repeat split.
  - intros n m proj H. discriminate.
  - intros n m proj e H. cbn in H. injection H as <- _. reflexivity.
  - intros mcs ms m labels H. cbn in H. injection H as <-.
    apply length_map.
Qed.

(** [main] builds its tables from what [analyse] hands to the save step. *)
Lemma main_analyse (L : libs) (cfg : config) (rnd : randomness)
    (read_ids : list string) (embeddings : matrix) :
  main L cfg rnd read_ids embeddings
  = match analyse L cfg rnd read_ids embeddings with
    | Some a =>
        match clusters_frame (kept_ids a) (labels a),
              novelty_frame (kept_ids a) (errors a) (distances a) with
        | Some clusters, Some novelty =>
            Some {| clusters_df := clusters; novelty_df := novelty;
                    printed := messages a |}
        | _, _ => None
        end
    | None => None
    end.
Proof.
  unfold main, analyse.
  destruct (align read_ids embeddings) as [[ids X] log0].
  destruct (size X =? 0)%nat; [reflexivity|].
  destruct (train _ cfg (loader rnd) _) as [trained|]; [|reflexivity].
  cbn [bind].
  destruct (extract (fst (fst trained)) X (eps_final rnd))
    as [latent recon_errors].
  destruct (hdbscan_fit_predict L _ _ _) as [cluster_labels|];
    [|reflexivity].
  cbn [bind].
  destruct (cluster_distance _ cluster_labels) as [cd|]; [|reflexivity].
  cbn [bind kept_ids labels errors distances messages].
  destruct (clusters_frame ids cluster_labels); [|reflexivity].
  cbn [bind].
  destruct (novelty_frame ids recon_errors cd); reflexivity.
Qed.

(** X10. With libraries whose results have one row (one label) per input
    row, a clusterer call that does not raise, a non-empty aligned input,
    a final draw of one row per read, and a file system on which the two
    directory creations and the two writes succeed (so both output paths
    have a directory part), the script reaches its end: it writes the
    cluster table and then the novelty table, each to its path, with
    min(len(identifiers), len(embeddings)) rows each and the same
    identifier column. *)
Theorem run_writes_both_tables (fs : filesystem) (L : libs) (cfg : config)
    (rnd : randomness) (out_clusters_csv out_novelty_csv : string)
    (read_ids : list string) (embeddings : matrix)
    (Hlibs : well_shaped L)
    (Hcall : clusterer_accepts L cfg rnd read_ids embeddings)
    (Hsize : size (aligned_X read_ids embeddings) <> 0%nat)
    (Heps : length (eps_final rnd) = length (aligned_X read_ids embeddings))
    (Hdir_clusters : os_makedirs fs (Paths.dirname out_clusters_csv) = true)
    (Hdir_novelty : os_makedirs fs (Paths.dirname out_novelty_csv) = true)
    (Hwrite_clusters : to_csv_ok fs out_clusters_csv = true)
    (Hwrite_novelty : to_csv_ok fs out_novelty_csv = true) :
  exists clusters novelty,
    run_script fs L cfg rnd out_clusters_csv out_novelty_csv
               read_ids embeddings
    = ([(out_clusters_csv, clusters_table clusters);
        (out_novelty_csv, novelty_table novelty)], true) /\
    length clusters = Nat.min (length read_ids) (length embeddings) /\
    length novelty = Nat.min (length read_ids) (length embeddings) /\
    map fst clusters = map (fun row => fst (fst row)) novelty /\
    Paths.dirname out_clusters_csv <> ""%string /\
    Paths.dirname out_novelty_csv <> ""%string.
Proof.
  destruct (main_completes L cfg rnd read_ids embeddings Hlibs Hcall Hsize
              Heps) as [out Hmain].
  pose proof (tables_of_completed_run _ _ _ _ _ _ Hmain) as (Hc & Hn & Hci & Hni).
  pose proof (align_lengths read_ids embeddings) as [Hlen _].
  exists (clusters_df out), (novelty_df out).
  split; [|split; [|split; [|split; [|split]]]].
  - rewrite main_analyse in Hmain. unfold run_script.
    destruct (analyse L cfg rnd read_ids embeddings) as [a|];
      [|discriminate].
    unfold save_outputs. rewrite Hdir_clusters, Hdir_novelty.
    cbn [negb].
    destruct (clusters_frame (kept_ids a) (labels a)) as [clusters|];
      [|discriminate].
    destruct (novelty_frame (kept_ids a) (errors a) (distances a))
      as [novelty|]; [|discriminate].
    injection Hmain as <-. cbn [clusters_df novelty_df].
    rewrite Hwrite_clusters, Hwrite_novelty. reflexivity.
  - rewrite Hc, Hlen. reflexivity.
  - rewrite Hn, Hlen. reflexivity.
  - rewrite Hci, Hni. reflexivity.
  - intros E. unfold os_makedirs in Hdir_clusters. rewrite E in Hdir_clusters.
    discriminate.
  - intros E. unfold os_makedirs in Hdir_novelty. rewrite E in Hdir_novelty.
    discriminate.
Qed.

Lemma run_writes_both_tables_witness :
  exists clusters novelty,
    run_script writable plain_libs default_config no_batches
               "out/s_clusters.csv" "out/s_novelty_scores.csv"
               three_ids two_rows
    = ([("out/s_clusters.csv"%string, clusters_table clusters);
        ("out/s_novelty_scores.csv"%string, novelty_table novelty)], true) /\
    length clusters = 2%nat /\
    length novelty = 2%nat /\
    map fst clusters = map (fun row => fst (fst row)) novelty.
Proof.
  assert (Hcall : clusterer_accepts plain_libs default_config no_batches
                    three_ids two_rows)
    by (intros trained _; discriminate).
  assert (Hsize : size (aligned_X three_ids two_rows) <> 0%nat)
    by (cbn; discriminate).
  assert (Heps : length (eps_final no_batches)
                 = length (aligned_X three_ids two_rows)) by reflexivity.
  destruct (run_writes_both_tables writable plain_libs default_config
              no_batches "out/s_clusters.csv" "out/s_novelty_scores.csv"
              three_ids two_rows plain_libs_well_shaped Hcall Hsize Heps
              eq_refl eq_refl eq_refl eq_refl)
    as (clusters & novelty & Hrun & Hc & Hn & Hids & _).
  exists clusters, novelty. repeat split; assumption.
Defined.

(** An output path without a directory part stops the script at the save
    step, after the whole analysis and before any table is written. *)
Lemma bare_output_path_fails (fs : filesystem) (L : libs) (cfg : config)
    (rnd : randomness) (out_clusters_csv out_novelty_csv : string)
    (read_ids : list string) (embeddings : matrix) :
  Paths.dirname out_clusters_csv = ""%string ->
  run_script fs L cfg rnd out_clusters_csv out_novelty_csv
             read_ids embeddings = ([], false).
Proof.
  intros E. unfold run_script.
  destruct (analyse L cfg rnd read_ids embeddings) as [a|]; [|reflexivity].
  unfold save_outputs, os_makedirs. rewrite E. reflexivity.
Qed.

(** ** Which tier produced the clustering input *)

Ltac decide_messages :=
  cbn; unfold msg_umap, msg_umap_ok, msg_umap_failed, msg_pca, msg_pca_ok,
         msg_pca_failed;
  repeat split; intros;
  repeat match goal with
         | H : _ \/ _ |- _ => destruct H
         | H : _ /\ _ |- _ => destruct H
         | H : False |- _ => destruct H
         end;
  try discriminate; try reflexivity; try congruence; auto 6.

(** X12. The messages printed by the projection stage tell which tier
    produced the clustering input: the UMAP success line is printed exactly
    when the UMAP result is used, the PCA success line exactly when the PCA
    result is used, the PCA failure warning exactly when the scaled latent
    is used unchanged, and the UMAP failure warning exactly when UMAP was
    available and raised. *)
Theorem tier_is_observable {A : Type} (has_umap : bool)
    (umap : nat -> list (list A) -> option (list (list A)))
    (pca : nat -> list (list A) -> option (list (list A) * npfloat))
    (cfg : config) (latent_scaled : list (list A)) :
  let r := reduce has_umap umap pca cfg latent_scaled in
  (used r = tier_umap <-> In msg_umap_ok (events r)) /\
  (used r = tier_pca <-> In msg_pca_ok (events r)) /\
  (used r = tier_scaled <-> In msg_pca_failed (events r)) /\
  (In msg_umap_failed (events r)
   <-> has_umap = true /\
       umap (Nat.min (umap_components cfg) (ncols latent_scaled)) latent_scaled
       = None).
Proof.
  unfold reduce, n_target, pca_or_scaled.
  destruct has_umap.
  - destruct (umap _ latent_scaled) as [proj|].
    + decide_messages.
    + destruct (pca _ latent_scaled) as [[proj e]|];
        [destruct (isnan e)|]; decide_messages.
  - destruct (pca _ latent_scaled) as [[proj e]|];
      [destruct (isnan e)|]; decide_messages.
Qed.

Lemma tier_is_observable_witness :
  let r := reduce true nan_umap unit_pca default_config [[finite 0]] in
  used r = tier_umap <-> In msg_umap_ok (events r).
Proof.
  exact (proj1 (tier_is_observable true nan_umap unit_pca default_config
                  [[finite 0]])).
Defined.

(** ** File names *)

Section PathFacts.
Import Ascii Paths.
Local Open Scope string_scope.

Lemma append_nil_r (s : string) : s ++ "" = s.
Proof. induction s as [|a s IH]; [reflexivity|]. cbn. now rewrite IH. Qed.

Lemma append_assoc (a b c : string) : (a ++ b) ++ c = a ++ (b ++ c).
Proof. induction a as [|x a IH]; [reflexivity|]. cbn. now rewrite IH. Qed.

Lemma has_char_append (c : ascii) (a b : string) :
  has_char c (a ++ b) = has_char c a || has_char c b.
Proof.
  induction a as [|x a IH]; [reflexivity|]. cbn. rewrite IH.
  now rewrite orb_assoc.
Qed.

Lemma all_chars_append (c : ascii) (a b : string) :
  all_chars c (a ++ b) = all_chars c a && all_chars c b.
Proof.
  induction a as [|x a IH]; [reflexivity|]. cbn. rewrite IH.
  now rewrite andb_assoc.
Qed.

Lemma rsplit_none (c : ascii) (s : string) :
  has_char c s = false -> rsplit c s = None.
Proof.
  induction s as [|a s IH]; [reflexivity|]. cbn. intros H.
  apply orb_false_iff in H. destruct H as [Ha Hs].
  rewrite IH by exact Hs. rewrite Ha. reflexivity.
Qed.

Lemma rsplit_last (c : ascii) (a t : string) :
  has_char c t = false -> rsplit c (a ++ String c t) = Some (a, t).
Proof.
  intros Ht. induction a as [|x a IH].
  - cbn. rewrite rsplit_none by exact Ht. rewrite Ascii.eqb_refl. reflexivity.
  - cbn. rewrite IH. reflexivity.
Qed.

Lemma rsplit_some (c : ascii) (s : string) :
  forall h t, rsplit c s = Some (h, t) ->
              s = h ++ String c t /\ has_char c t = false.
Proof.
  induction s as [|a s IH]; intros h t H; [discriminate|].
  cbn in H. destruct (rsplit c s) as [[h' t']|] eqn:E.
  - injection H as <- <-. destruct (IH h' t' eq_refl) as [-> Ht].
    split; [reflexivity | exact Ht].
  - destruct (Ascii.eqb_spec a c) as [->|Hne]; [|discriminate].
    injection H as <- <-. split; [reflexivity|].
    destruct (has_char c s) eqn:Hc; [|reflexivity].
    exfalso. clear IH. induction s as [|b s IHs]; [discriminate|].
    cbn in E, Hc. destruct (rsplit c s) as [[? ?]|]; [discriminate|].
    destruct (Ascii.eqb b c); [discriminate|]. cbn in Hc. auto.
Qed.

Lemma basename_no_slash (p : string) : has_char "/" (basename p) = false.
Proof.
  unfold basename. destruct (rsplit "/" p) as [[h t]|] eqn:E.
  - apply rsplit_some in E. apply E.
  - destruct (has_char "/" p) eqn:Hc; [|reflexivity].
    exfalso. induction p as [|a p IH]; [discriminate|].
    cbn in E, Hc. destruct (rsplit "/" p) as [[? ?]|]; [discriminate|].
    destruct (Ascii.eqb a "/"); [discriminate|]. cbn in Hc. auto.
Qed.

Lemma basename_plain (name : string) :
  has_char "/" name = false -> basename name = name.
Proof. intros H. unfold basename. now rewrite rsplit_none. Qed.

Lemma ends_with_slash (d : string) :
  ends_with "/" d = true -> exists d', d = d' ++ "/".
Proof.
  induction d as [|a d IH]; [discriminate|]. cbn [ends_with]. intros H.
  apply orb_true_iff in H. destruct H as [H|H].
  - apply String.eqb_eq in H. exists "". exact H.
  - destruct (IH H) as [d' ->]. exists (String a d'). reflexivity.
Qed.

Lemma basename_join (d name : string) :
  has_char "/" name = false -> basename (join d name) = name.
Proof.
  intros Hn. unfold join.
  assert (Hp : prefix "/" name = false).
  { destruct (prefix "/" name) eqn:E; [|reflexivity].
    apply prefix_correct in E. destruct name as [|a name]; [discriminate|].
    cbn in E. injection E as -> _. cbn in Hn. discriminate. }
  rewrite Hp. unfold basename.
  destruct (String.eqb_spec d "") as [->|Hd].
  - cbn. now rewrite rsplit_none.
  - cbn [orb]. destruct (ends_with "/" d) eqn:He.
    + destruct (ends_with_slash d He) as [d' ->].
      rewrite append_assoc. cbn [append]. now rewrite rsplit_last.
    + change (d ++ "/" ++ name) with (d ++ String "/" name).
      now rewrite rsplit_last.
Qed.

Lemma join_nonempty (d name : string) : name <> "" -> join d name <> "".
Proof.
  intros Hn. unfold join. destruct (prefix "/" name); [exact Hn|].
  destruct ((d =? "") || ends_with "/" d).
  - destruct d; [exact Hn | discriminate].
  - destruct d; discriminate.
Qed.

Lemma splitext_name (stem ext : string) :
  has_char "/" stem = false -> all_chars "." stem = false ->
  has_char "." ext = false -> has_char "/" ext = false ->
  splitext (stem ++ String "." ext) = (stem, String "." ext).
Proof.
  intros Hs Hd He Hse. unfold splitext.
  rewrite rsplit_last by exact He.
  rewrite Hse, (basename_plain stem Hs), Hd. reflexivity.
Qed.

Lemma splitext_leading_dots (dots ext : string) :
  all_chars "." dots = true -> has_char "." ext = false ->
  splitext (dots ++ String "." ext) = (dots ++ String "." ext, "").
Proof.
  intros Hd He. unfold splitext. rewrite rsplit_last by exact He.
  destruct (has_char "/" ext); [reflexivity|].
  assert (Hs : has_char "/" dots = false).
  { clear He. induction dots as [|a dots IH]; [reflexivity|].
    cbn in Hd |- *. apply andb_true_iff in Hd. destruct Hd as [Ha Hd].
    apply Ascii.eqb_eq in Ha. subst a. cbn. apply IH. exact Hd. }
  rewrite (basename_plain dots Hs), Hd. reflexivity.
Qed.

Lemma splitext_root_no_slash (name : string) :
  has_char "/" name = false -> has_char "/" (fst (splitext name)) = false.
Proof.
  intros Hn. unfold splitext.
  destruct (rsplit "." name) as [[h t]|] eqn:E; [|exact Hn].
  destruct (has_char "/" t); [exact Hn|].
  destruct (all_chars "." (basename h)); [exact Hn|]. cbn [fst].
  apply rsplit_some in E. destruct E as [-> _].
  rewrite has_char_append in Hn. apply orb_false_iff in Hn. apply Hn.
Qed.

Lemma get_base_filename_no_slash (p : string) :
  has_char "/" (get_base_filename p) = false.
Proof.
  unfold get_base_filename. apply splitext_root_no_slash.
  apply basename_no_slash.
Qed.

Lemma ends_with_append (s suffix : string) : ends_with suffix (s ++ suffix) = true.
Proof.
  induction s as [|a s IH].
  - cbn [append]. destruct suffix; cbn [ends_with]; rewrite String.eqb_refl;
      reflexivity.
  - cbn [append ends_with]. rewrite IH. apply orb_true_r.
Qed.

Lemma length_append (a b : string) :
  String.length (a ++ b) = (String.length a + String.length b)%nat.
Proof. induction a as [|x a IH]; [reflexivity|]. cbn. now rewrite IH. Qed.

Lemma substring_prefix (a b : string) :
  substring 0 (String.length a) (a ++ b) = a.
Proof.
  induction a as [|x a IH].
  - destruct b; reflexivity.
  - cbn. now rewrite IH.
Qed.

Lemma drop_last_append (s suffix : string) :
  drop_last (String.length suffix) (s ++ suffix) = s.
Proof.
  unfold drop_last. rewrite length_append.
  replace (String.length s + String.length suffix - String.length suffix)%nat
    with (String.length s) by lia.
  apply substring_prefix.
Qed.

Lemma strip_embeddings_append (stem : string) :
  strip_embeddings (stem ++ "_embeddings") = stem.
Proof.
  unfold strip_embeddings. rewrite ends_with_append.
  apply (drop_last_append stem "_embeddings").
Qed.

Lemma strip_dedup_counts_append (stem : string) :
  strip_dedup_counts (stem ++ "_dedup_counts") = stem.
Proof.
  unfold strip_dedup_counts. rewrite ends_with_append.
  apply (drop_last_append stem "_dedup_counts").
Qed.

Lemma all_chars_with_underscore (stem rest : string) :
  all_chars "." (stem ++ String "_" rest) = false.
Proof.
  rewrite all_chars_append. cbn. apply andb_false_r.
Qed.

(** The base name of [.../<stem>_<kind>.<ext>] is [<stem>_<kind>]. *)
Lemma get_base_filename_of (p stem kind ext : string) :
  basename p = stem ++ String "_" kind ++ String "." ext ->
  has_char "." ext = false -> has_char "/" ext = false ->
  get_base_filename p = stem ++ String "_" kind.
Proof.
  intros Hb He Hse. unfold get_base_filename. rewrite Hb.
  pose proof (basename_no_slash p) as Hns. rewrite Hb in Hns.
  replace (stem ++ String "_" kind ++ String "." ext)
    with ((stem ++ String "_" kind) ++ String "." ext) in *
    by (rewrite append_assoc; reflexivity).
  rewrite has_char_append in Hns. apply orb_false_iff in Hns.
  rewrite splitext_name; [reflexivity | apply Hns | | exact He | exact Hse].
  apply all_chars_with_underscore.
Qed.
End PathFacts.

Section PathProperties.
Import Ascii Paths Runner.
Local Open Scope string_scope.

Lemma append_cons_nonempty (a : string) (c : ascii) (b : string) :
  a ++ String c b <> "".
Proof. destruct a; discriminate. Qed.

Lemma truthy_basename (p stem rest : string) :
  basename p = stem ++ String "_" rest -> truthy (Some p) = true.
Proof.
  intros H. cbn. destruct (String.eqb_spec p "") as [->|]; [|reflexivity].
  cbn in H. symmetry in H. apply append_cons_nonempty in H. destruct H.
Qed.

(** X13. The output files are named after the input file and placed beside
    it: for an embeddings file [<dir>/<stem>_embeddings.npy] the tables are
    [<stem>_clusters.csv] and [<stem>_novelty_scores.csv] in the directory
    of that file, whatever the identifier file is called; without an
    embeddings path the identifier file [<stem>_dedup_counts.csv] names
    them in the same way; without either they are the default files under
    data/processed. *)
Theorem output_files_named_after_input (p d stem_p stem_d : string)
    (Hp : basename p = stem_p ++ "_embeddings.npy")
    (Hd : basename d = stem_d ++ "_dedup_counts.csv") :
  (forall dedup,
     generate_output_paths (Some p) dedup
     = (join (dirname p) (stem_p ++ "_clusters.csv"),
        join (dirname p) (stem_p ++ "_novelty_scores.csv"))) /\
  (forall e, truthy e = false ->
     generate_output_paths e (Some d)
     = (join (dirname d) (stem_d ++ "_clusters.csv"),
        join (dirname d) (stem_d ++ "_novelty_scores.csv"))) /\
  (forall e d', truthy e = false -> truthy d' = false ->
     generate_output_paths e d'
     = ("data/processed/default_clusters.csv",
        "data/processed/default_novelty_scores.csv")).
Proof.
  assert (Hbp : get_base_filename p = stem_p ++ "_embeddings")
    by (apply (get_base_filename_of p stem_p "embeddings" "npy" Hp);
        reflexivity).
  assert (Hbd : get_base_filename d = stem_d ++ "_dedup_counts")
    by (apply (get_base_filename_of d stem_d "dedup_counts" "csv" Hd);
        reflexivity).
  split; [|split].
  - intros dedup. unfold generate_output_paths.
    rewrite (truthy_basename p stem_p _ Hp). cbn [path_of].
    rewrite Hbp, strip_embeddings_append. reflexivity.
  - intros e He. unfold generate_output_paths.
    rewrite He, (truthy_basename d stem_d _ Hd). cbn [path_of].
    rewrite Hbd, strip_dedup_counts_append. reflexivity.
  - intros e d' He Hd'. unfold generate_output_paths.
    rewrite He, Hd'. reflexivity.
Qed.

Lemma output_files_named_after_input_witness :
  generate_output_paths (Some "out/run1_embeddings.npy") None
  = (join (dirname "out/run1_embeddings.npy") ("run1" ++ "_clusters.csv"),
     join (dirname "out/run1_embeddings.npy") ("run1" ++ "_novelty_scores.csv")).
Proof.
  exact (proj1 (output_files_named_after_input
                  "out/run1_embeddings.npy" "out/run1_dedup_counts.csv"
                  "run1" "run1" eq_refl eq_refl) None).
Defined.

(** The same names, computed. *)
Example output_paths_of_run1 :
  generate_output_paths (Some "out/run1_embeddings.npy") None
  = ("out/run1_clusters.csv", "out/run1_novelty_scores.csv").
Proof. reflexivity. Qed.

(** X14. The runner and the clustering script agree on the file names:
    started as step 3 starts it, the script does not auto-detect anything,
    and the two tables it writes are exactly the clusters and novelty files
    whose existence the runner checks afterwards, for every input file
    name and directory. *)
Theorem runner_checks_what_the_script_writes (abspath : string -> string)
    (fasta : string) (auto : option string * option string) :
  let paths := setup_directories abspath fasta in
  let args := vae_cluster_args paths in
  resolve_inputs args auto
  = (Some (embeddings_npy paths), Some (dedup_csv paths)) /\
  output_paths args (Some (embeddings_npy paths)) (Some (dedup_csv paths))
  = (clusters_csv paths, novelty_csv paths).
Proof.
  intros paths args.
  set (base := get_base_filename fasta).
  set (out := output_dir paths).
  assert (Hbase : has_char "/" base = false)
    by apply get_base_filename_no_slash.
  assert (Htruthy : forall dir rest,
            truthy (Some (join dir (base ++ String "_" rest))) = true).
  { intros dir rest. cbn.
    destruct (String.eqb_spec (join dir (base ++ String "_" rest)) "")
      as [E|]; [|reflexivity].
    apply join_nonempty in E; [destruct E | apply append_cons_nonempty]. }
  assert (He : truthy (Some (embeddings_npy paths)) = true) by apply Htruthy.
  assert (Hd : truthy (Some (dedup_csv paths)) = true) by apply Htruthy.
  assert (Ho : truthy (Some out) = true) by apply Htruthy.
  split.
  - unfold resolve_inputs, args, vae_cluster_args.
    cbn [arg_embeddings_path arg_dedup_csv_path]. rewrite He, Hd. reflexivity.
  - unfold output_paths, args, vae_cluster_args. cbn [arg_output_dir].
    fold out. rewrite Ho. unfold first_path, py_or. rewrite He. cbn [path_of].
    rewrite He. cbn [path_of].
    assert (Hb : get_base_filename (embeddings_npy paths)
                 = base ++ "_embeddings").
    { apply (get_base_filename_of _ base "embeddings" "npy");
        [|reflexivity|reflexivity].
      apply basename_join. rewrite has_char_append, Hbase. reflexivity. }
    rewrite Hb, ends_with_append.
    pose proof (drop_last_append base "_embeddings") as Hdrop.
    cbn [String.length] in Hdrop. rewrite Hdrop. reflexivity.
Qed.

(** X15. [get_base_filename] drops the directories and one extension: the
    base name of [<dir>/<stem>.<ext>] is [<stem>]; a name without a dot and
    a name that only starts with dots are kept whole; and a base name
    never contains a slash. *)
Theorem base_name_of_path (dir stem ext : string)
    (Hstem : has_char "/" stem = false)
    (Hdots : all_chars "." stem = false)
    (Hext : has_char "." ext = false)
    (Hsep : has_char "/" ext = false) :
  get_base_filename (join dir (stem ++ String "." ext)) = stem /\
  (has_char "." stem = false -> get_base_filename (join dir stem) = stem) /\
  get_base_filename (join dir (String "." ext)) = String "." ext /\
  (forall p, has_char "/" (get_base_filename p) = false).
Proof.
  split; [|split; [|split]].
  - unfold get_base_filename. rewrite basename_join
      by (rewrite has_char_append, Hstem; cbn; exact Hsep).
    rewrite splitext_name by assumption. reflexivity.
  - intros Hnodot. unfold get_base_filename.
    rewrite basename_join by exact Hstem.
    unfold splitext. rewrite rsplit_none by exact Hnodot. reflexivity.
  - unfold get_base_filename. rewrite basename_join by (cbn; exact Hsep).
    pose proof (splitext_leading_dots "" ext eq_refl Hext) as Hsplit.
    cbn [append] in Hsplit. rewrite Hsplit. reflexivity.
  - apply get_base_filename_no_slash.
Qed.

Lemma base_name_of_path_witness :
  get_base_filename (join "data/raw" ("sample.v2" ++ String "." "fasta"))
  = "sample.v2".
Proof.
  exact (proj1 (base_name_of_path "data/raw" "sample.v2" "fasta"
                  eq_refl eq_refl eq_refl eq_refl)).
Defined.
End PathProperties.

(** ** Auto-detection of the input files *)

Section DiscoveryProperties.
Import Paths.
Local Open Scope string_scope.
Variable glob : string -> list string.
Variable getmtime : string -> R.


End DiscoveryProperties.


(** ** The pipeline runner *)

Section RunnerProperties.
Import Paths Runner.
Variable world : Type.
Variable path_exists : string -> world -> bool.
Variable run_subprocess : list string -> world -> bool * world.
Variable makedirs : string -> world -> world.
Variable abspath : string -> string.
Variable python : string.
Variable script_dir : string.

Abbreviation required_step' := (required_step world path_exists run_subprocess).
Abbreviation optional_step' := (optional_step world run_subprocess).
Abbreviation start' := (start world path_exists makedirs abspath).
Abbreviation step1' :=
  (step1 world path_exists run_subprocess python script_dir).
Abbreviation step2' :=
  (step2 world path_exists run_subprocess python script_dir).
Abbreviation step3' :=
  (step3 world path_exists run_subprocess python script_dir).
Abbreviation step4' := (step4 world run_subprocess python script_dir).
Abbreviation step5' := (step5 world run_subprocess python script_dir).
Abbreviation run_pipeline' :=
  (run_pipeline world path_exists run_subprocess makedirs abspath python
                script_dir).
Abbreviation step_fails' := (step_fails world path_exists run_subprocess).
Abbreviation step_succeeds' :=
  (step_succeeds world path_exists run_subprocess).
Abbreviation world_after' := (world_after world run_subprocess).

Lemma required_step_exited (enabled : bool) (cmd : list string)
    (outputs : list string) (s : run_state world) (status : Z) :
  exit_status world s = Some status ->
  required_step' enabled cmd outputs s = s.
Proof. intros H. unfold required_step. rewrite H. reflexivity. Qed.

Lemma optional_step_exited (enabled : bool) (cmd : list string)
    (s : run_state world) (status : Z) :
  exit_status world s = Some status -> optional_step' enabled cmd s = s.
Proof. intros H. unfold optional_step. rewrite H. reflexivity. Qed.

Lemma required_step_status (enabled : bool) (cmd : list string)
    (outputs : list string) (s : run_state world) :
  (exit_status world s = None \/ exit_status world s = Some 1%Z) ->
  exit_status world (required_step' enabled cmd outputs s) = None \/
  exit_status world (required_step' enabled cmd outputs s) = Some 1%Z.
Proof.
  intros H. unfold required_step.
  destruct (exit_status world s) eqn:E.
  - rewrite E. exact H.
  - destruct enabled; [|left; exact E].
    unfold run_command. destruct (run_subprocess cmd (now world s)) as [ok w].
    destruct ok; cbn [negb].
    + destruct (forallb _ outputs); cbn; [left; exact E | right; reflexivity].
    + right. reflexivity.
Qed.

Lemma optional_step_status (enabled : bool) (cmd : list string)
    (s : run_state world) :
  exit_status world (optional_step' enabled cmd s) = exit_status world s.
Proof.
  unfold optional_step. destruct (exit_status world s) eqn:E; [exact E|].
  destruct enabled; [|exact E].
  unfold run_command. destruct (run_subprocess cmd (now world s)) as [ok w].
  exact E.
Qed.

(** A required step that fails calls [sys.exit(1)] right after its
    command. *)
Lemma required_step_fails (cmd : list string) (outputs : list string)
    (s : run_state world) :
  exit_status world s = None ->
  step_fails' cmd outputs (now world s) ->
  required_step' true cmd outputs s
  = sys_exit world 1
      {| started := (started world s ++ [cmd])%list;
         now := snd (run_subprocess cmd (now world s));
         exit_status := None |}.
Proof.
  intros E Hfail. unfold required_step, step_fails in *. rewrite E.
  unfold run_command.
  destruct (run_subprocess cmd (now world s)) as [ok w'].
  cbn [fst snd] in *. unfold sys_exit. cbn [started now exit_status].
  destruct ok; cbn [negb]; [|reflexivity].
  destruct Hfail as [Hcmd|(f & Hin & Hf)]; [discriminate|].
  assert (F : forallb (fun f0 => path_exists f0 w') outputs = false).
  { destruct (forallb _ outputs) eqn:F; [|reflexivity].
    rewrite forallb_forall in F. rewrite (F f Hin) in Hf. discriminate. }
  rewrite F. reflexivity.
Qed.

(** Once [sys.exit] was called, none of the later steps does anything. *)
Lemma exited_run_stays (args : runner_args) (paths : pipeline_paths)
    (s : run_state world) (status : Z) :
  exit_status world s = Some status ->
  step1' args paths s = s /\ step2' args paths s = s /\
  step3' args paths s = s /\ step4' args paths s = s /\
  step5' args paths s = s.
Proof.
  intros E. unfold step1, step2, step3, step4, step5.
  rewrite !(required_step_exited _ _ _ s status E).
  rewrite !(optional_step_exited _ _ s status E).
  repeat split.
Qed.

(** X17. The runner ends with status 1 or runs to its end, and the two
    optional steps never decide which: the exit status is the one reached
    after step 3.  A missing input file ends the run before anything is
    started, the output directory included.  An exit at any of the steps 1
    to 3 ends the run there: no later step, required or optional, starts
    its command.  And each of the steps 1 to 3, when it is enabled and
    reached, exits with status 1 right after its command when the command
    fails or leaves one of its output files missing. *)
Theorem only_required_steps_are_fatal (args : runner_args) (w : world) :
  let paths := setup_directories abspath (arg_input_fasta args) in
  let s0 := start' args w in
  let s1 := step1' args paths s0 in
  let s2 := step2' args paths s1 in
  let s3 := step3' args paths s2 in
  let s := run_pipeline' args w in
  let exits_after (before : run_state world) (cmd : list string) :=
    sys_exit world 1
      {| started := (started world before ++ [cmd])%list;
         now := snd (run_subprocess cmd (now world before));
         exit_status := None |} in
  (exit_status world s = None \/ exit_status world s = Some 1%Z) /\
  exit_status world s = exit_status world s3 /\
  (path_exists (arg_input_fasta args) w = false ->
   s = sys_exit world 1 {| started := []; now := w; exit_status := None |}) /\
  (forall sk, In sk [s0; s1; s2; s3] ->
     exit_status world sk = Some 1%Z -> s = sk) /\
  (exit_status world s0 = None -> step_enabled args 1 = true ->
   step_fails' (preprocess_cmd python script_dir paths)
               [cleaned_fasta paths; dedup_csv paths] (now world s0) ->
   s = exits_after s0 (preprocess_cmd python script_dir paths)) /\
  (exit_status world s1 = None -> step_enabled args 2 = true ->
   step_fails' (embeddings_cmd python script_dir args paths)
               [embeddings_npy paths] (now world s1) ->
   s = exits_after s1 (embeddings_cmd python script_dir args paths)) /\
  (exit_status world s2 = None -> step_enabled args 3 = true ->
   step_fails' (vae_cluster_cmd python script_dir paths)
               [clusters_csv paths; novelty_csv paths] (now world s2) ->
   s = exits_after s2 (vae_cluster_cmd python script_dir paths)).
Proof.
  intros paths s0 s1 s2 s3 s exits_after.
  assert (Hst : exit_status world s = exit_status world s3).
  { subst s. unfold run_pipeline, step5, step4.
    rewrite !optional_step_status. reflexivity. }
  assert (H0 : exit_status world s0 = None \/ exit_status world s0 = Some 1%Z).
  { subst s0. unfold start.
    destruct (path_exists (arg_input_fasta args) w); cbn [negb];
      [left|right]; reflexivity. }
  assert (H3 : exit_status world s3 = None \/ exit_status world s3 = Some 1%Z).
  { subst s3 s2 s1. unfold step3, step2, step1.
    repeat apply required_step_status. exact H0. }
  assert (Hs0 : exit_status world s0 = Some 1%Z -> s = s0).
  { intros E. destruct (exited_run_stays args paths s0 1 E)
      as (E1 & E2 & E3 & E4 & E5).
    subst s. unfold run_pipeline. fold paths. fold s0.
    rewrite E1, E2, E3, E4, E5. reflexivity. }
  assert (Hs1 : exit_status world s1 = Some 1%Z -> s = s1).
  { intros E. destruct (exited_run_stays args paths s1 1 E)
      as (_ & E2 & E3 & E4 & E5).
    subst s. unfold run_pipeline. fold paths. fold s0. fold s1.
    rewrite E2, E3, E4, E5. reflexivity. }
  assert (Hs2 : exit_status world s2 = Some 1%Z -> s = s2).
  { intros E. destruct (exited_run_stays args paths s2 1 E)
      as (_ & _ & E3 & E4 & E5).
    subst s. unfold run_pipeline. fold paths. fold s0. fold s1. fold s2.
    rewrite E3, E4, E5. reflexivity. }
  assert (Hs3 : exit_status world s3 = Some 1%Z -> s = s3).
  { intros E. destruct (exited_run_stays args paths s3 1 E)
      as (_ & _ & _ & E4 & E5).
    subst s. unfold run_pipeline. fold paths. fold s0. fold s1. fold s2.
    fold s3. rewrite E4, E5. reflexivity. }
  split; [rewrite Hst; exact H3|]. split; [exact Hst|].
  split; [|split; [|split; [|split]]].
  - intros Hmissing. rewrite Hs0.
    + subst s0. unfold start. rewrite Hmissing. reflexivity.
    + subst s0. unfold start. rewrite Hmissing. reflexivity.
  - intros sk [<-|[<-|[<-|[<-|[]]]]]; assumption.
  - intros E Hen Hfail.
    assert (E1 : s1 = exits_after s0 (preprocess_cmd python script_dir paths)).
    { subst s1. unfold step1. rewrite Hen.
      apply required_step_fails; assumption. }
    rewrite Hs1; [exact E1 | rewrite E1; reflexivity].
  - intros E Hen Hfail.
    assert (E2 : s2 = exits_after s1
                        (embeddings_cmd python script_dir args paths)).
    { subst s2. unfold step2. rewrite Hen.
      apply required_step_fails; assumption. }
    rewrite Hs2; [exact E2 | rewrite E2; reflexivity].
  - intros E Hen Hfail.
    assert (E3 : s3 = exits_after s2 (vae_cluster_cmd python script_dir paths)).
    { subst s3. unfold step3. rewrite Hen.
      apply required_step_fails; assumption. }
    rewrite Hs3; [exact E3 | rewrite E3; reflexivity].
Qed.

Lemma required_step_ok (enabled : bool) (cmd : list string)
    (outputs : list string) (s : run_state world) :
  exit_status world s = None ->
  step_succeeds' enabled cmd outputs (now world s) ->
  let s' := required_step' enabled cmd outputs s in
  exit_status world s' = None /\
  started world s'
  = (started world s ++ (if enabled then [cmd] else []))%list /\
  now world s' = world_after' enabled cmd (now world s).
Proof.
  intros E Hok. unfold required_step, step_succeeds, world_after in *.
  rewrite E.
  destruct enabled;
    [|cbn; rewrite app_nil_r; repeat split; exact E].
  destruct (Hok eq_refl) as [Hcmd Hfiles].
  unfold run_command.
  destruct (run_subprocess cmd (now world s)) as [ok w']. cbn [fst snd] in *.
  subst ok. cbn [negb now].
  assert (F : forallb (fun f => path_exists f w') outputs = true)
    by (apply forallb_forall; intros f Hf; apply Hfiles; exact Hf).
  rewrite F. cbn. repeat split. exact E.
Qed.

Lemma optional_step_started (enabled : bool) (cmd : list string)
    (s : run_state world) :
  exit_status world s = None ->
  started world (optional_step' enabled cmd s)
  = (started world s ++ (if enabled then [cmd] else []))%list.
Proof.
  intros E. unfold optional_step. rewrite E.
  destruct enabled; [|cbn; rewrite app_nil_r; reflexivity].
  unfold run_command. destruct (run_subprocess cmd (now world s)) as [ok w'].
  reflexivity.
Qed.

(** X18. When the input file exists and each of the three required steps
    that is enabled succeeds when its turn comes (its command returns
    status 0 in the world the steps before it have left, and its output
    files are there once it has run), the runner runs to its end whatever
    the optional steps do, and it starts exactly the enabled steps in
    order: the steps before --resume-from are passed over, the phylogeny
    step also with --skip-phylo, the extraction step also with
    --skip-extract. *)
Theorem runner_starts_the_enabled_steps (args : runner_args) (w : world)
    (Hinput : path_exists (arg_input_fasta args) w = true) :
  let paths := setup_directories abspath (arg_input_fasta args) in
  let w0 := makedirs (output_dir paths) w in
  let w1 := world_after' (step_enabled args 1)
              (preprocess_cmd python script_dir paths) w0 in
  let w2 := world_after' (step_enabled args 2)
              (embeddings_cmd python script_dir args paths) w1 in
  step_succeeds' (step_enabled args 1)
    (preprocess_cmd python script_dir paths)
    [cleaned_fasta paths; dedup_csv paths] w0 ->
  step_succeeds' (step_enabled args 2)
    (embeddings_cmd python script_dir args paths)
    [embeddings_npy paths] w1 ->
  step_succeeds' (step_enabled args 3)
    (vae_cluster_cmd python script_dir paths)
    [clusters_csv paths; novelty_csv paths] w2 ->
  exit_status world (run_pipeline' args w) = None /\
  started world (run_pipeline' args w)
  = enabled_commands abspath python script_dir args.
Proof.
  intros paths w0 w1 w2 H1 H2 H3.
  unfold run_pipeline, enabled_commands. fold paths.
  set (s0 := start' args w).
  assert (E0 : exit_status world s0 = None /\ started world s0 = []
               /\ now world s0 = w0).
  { subst s0. unfold start. rewrite Hinput. repeat split. }
  destruct E0 as (E0 & S0 & N0).
  rewrite <- N0 in H1.
  destruct (required_step_ok _ _ _ s0 E0 H1) as (E1 & S1 & N1).
  fold (step1' args paths s0) in E1, S1, N1.
  set (s1 := step1' args paths s0) in *.
  rewrite N0 in N1. fold w1 in N1. rewrite <- N1 in H2.
  destruct (required_step_ok _ _ _ s1 E1 H2) as (E2 & S2 & N2).
  fold (step2' args paths s1) in E2, S2, N2.
  set (s2 := step2' args paths s1) in *.
  rewrite N1 in N2. fold w2 in N2. rewrite <- N2 in H3.
  destruct (required_step_ok _ _ _ s2 E2 H3) as (E3 & S3 & _).
  fold (step3' args paths s2) in E3, S3.
  set (s3 := step3' args paths s2) in *.
  unfold step5, step4. split.
  - rewrite !optional_step_status. exact E3.
  - rewrite optional_step_started
      by (rewrite optional_step_status; exact E3).
    rewrite optional_step_started by exact E3.
    rewrite S3, S2, S1, S0. cbn [app]. rewrite <- !app_assoc. reflexivity.
Qed.
End RunnerProperties.

(** Every child process fails: the runner stops after the first one. *)
Lemma only_required_steps_are_fatal_witness :
  Runner.run_pipeline unit all_there never_ok no_makedirs under_w
    "python3"%string "scripts"%string from_start tt
  = {| Runner.started :=
         [["python3"; "scripts/preprocess.py"; "data/raw/s.fasta";
           "/w/data/processed/s_processed"]%string];
       Runner.now := tt;
       Runner.exit_status := Some 1%Z |}.
Proof.
  destruct (only_required_steps_are_fatal unit all_there never_ok no_makedirs
              under_w "python3"%string "scripts"%string from_start tt)
    as (_ & _ & _ & _ & Hstep1 & _).
  rewrite Hstep1; [vm_compute; reflexivity | reflexivity | reflexivity |].
  left. reflexivity.
Defined.

(** A fresh run, in which no output file is there before a command has
    run. *)
Lemma runner_starts_the_enabled_steps_witness :
  fresh_exists "/w/data/processed/s_processed/s_clusters.csv" 0 = false /\
  Runner.exit_status nat
    (Runner.run_pipeline nat fresh_exists counting_ok keep_world under_w
       "python3"%string "scripts"%string from_start 0%nat) = None /\
  Runner.started nat
    (Runner.run_pipeline nat fresh_exists counting_ok keep_world under_w
       "python3"%string "scripts"%string from_start 0%nat)
  = Runner.enabled_commands under_w "python3"%string "scripts"%string
      from_start.
Proof.
  split; [reflexivity|].
  apply (runner_starts_the_enabled_steps nat fresh_exists counting_ok
           keep_world under_w "python3"%string "scripts"%string from_start
           0%nat eq_refl).
  - intros _. split; [reflexivity|]. intros f _.
    unfold fresh_exists. apply orb_true_r.
  - intros _. split; [reflexivity|]. intros f _.
    unfold fresh_exists. apply orb_true_r.
  - intros _. split; [reflexivity|]. intros f _.
    unfold fresh_exists. apply orb_true_r.
Defined.

(** The same call, computed: resumed at step 3 without the phylogeny, the
    runner starts the clustering script and the extraction, on the files
    under the "processed" twin of the input directory. *)
Example runner_resumed_at_3 :
  Runner.started unit
    (Runner.run_pipeline unit all_there always_ok no_makedirs under_w
       "python3"%string "scripts"%string resume_at_3 tt)
  = [["python3"; "scripts/vae_cluster.py";
      "--embeddings_path"; "/w/data/processed/s_processed/s_embeddings.npy";
      "--dedup_csv_path"; "/w/data/processed/s_processed/s_dedup_counts.csv";
      "--output_dir"; "/w/data/processed/s_processed"];
     ["python3"; "scripts/cluster_extract.py"; "data/raw/s.fasta";
      "/w/data/processed/s_processed/s_clusters.csv"]]%string.
Proof. vm_compute. reflexivity. Qed.

(** ** The default identifiers *)

Lemma index_string_injective (i j : nat) :
  index_string i = index_string j -> i = j.
Proof.
  unfold index_string. intros H.
  assert (Hn : forall n, Nat.to_uint n <> Decimal.Nil).
  { intros n. rewrite <- (DecimalNat.Unsigned.of_to n) at 1.
    rewrite DecimalNat.Unsigned.to_of. apply DecimalFacts.unorm_nonnil. }
  apply (f_equal DecimalString.NilZero.uint_of_string) in H.
  rewrite !DecimalString.NilZero.usu in H by apply Hn.
  injection H as H. apply DecimalNat.Unsigned.to_uint_inj. exact H.
Qed.

Lemma default_read_ids_length (n : nat) : length (default_read_ids n) = n.
Proof. unfold default_read_ids. rewrite length_map. apply length_seq. Qed.

Lemma NoDup_map_injective {S T : Type} (f : S -> T) (l : list S) :
  (forall x y, f x = f y -> x = y) -> NoDup l -> NoDup (map f l).
Proof.
  intros Hf. induction 1 as [|x l Hx _ IH]; cbn; constructor; [|exact IH].
  intros Hin. apply in_map_iff in Hin. destruct Hin as (y & Hy & Hyl).
  apply Hf in Hy. subst y. contradiction.
Qed.

(** X19. Without an identifier file the reads are named by their row
    index: the run then never truncates and never warns, both tables have
    one row per embedding row, row i carries the decimal numeral of i, and
    no two rows share an identifier. *)
Theorem default_identifiers_are_row_indices (L : libs) (cfg : config)
    (rnd : randomness) (embeddings : matrix) (out : outputs)
    (Hmain : main L cfg rnd (load_read_ids None embeddings) embeddings
             = Some out) :
  ~ In truncation_warning (printed out) /\
  length (clusters_df out) = length embeddings /\
  length (novelty_df out) = length embeddings /\
  map fst (clusters_df out) = map index_string (seq 0 (length embeddings)) /\
  map (fun row => fst (fst row)) (novelty_df out)
  = map index_string (seq 0 (length embeddings)) /\
  NoDup (map fst (clusters_df out)).
Proof.
  cbn [load_read_ids] in Hmain.
  pose proof (default_read_ids_length (length embeddings)) as Hlen.
  pose proof (truncation_warning_printed _ _ _ _ _ _ Hmain) as Hw.
  destruct (tables_when_lengths_agree _ _ _ _ _ _ Hmain Hlen)
    as (Hc & Hn & Hlc & Hln).
  split; [intros Hin; apply Hw in Hin; apply Hin; exact Hlen|].
  split; [exact Hlc|]. split; [exact Hln|].
  split; [exact Hc|]. split; [exact Hn|].
  rewrite Hc. unfold default_read_ids.
  apply NoDup_map_injective; [|apply seq_NoDup].
  intros i j. apply index_string_injective.
Qed.

Lemma default_identifiers_are_row_indices_witness :
  exists out,
    main plain_libs default_config no_batches
         (load_read_ids None two_rows) two_rows = Some out /\
    map fst (clusters_df out) = ["0"; "1"]%string.
Proof.
  assert (Hrun : { out | main plain_libs default_config no_batches
                              (load_read_ids None two_rows) two_rows
                         = Some out })
    by (eexists; run_main).
  destruct Hrun as [out Hmain]. exists out. split; [exact Hmain|].
  exact (proj1 (proj2 (proj2 (proj2
           (default_identifiers_are_row_indices _ _ _ _ _ Hmain))))).
Defined.
